(** * OpChan core: delegated signing, replica, relevance and derived views

    A shallow embedding of the OpChan core (packages/core) and of the React
    content hook (useContent) together with the properties the design
    documents state about them.

    Conventions.
    - JavaScript strings are [string]; millisecond timestamps are [Z].
    - JavaScript objects used as dictionaries are [gmap string _].
    - The cryptographic primitives (Ed25519 from @noble/ed25519 and the
      wallet signature check from viem) are external to the repository; they
      are Section variables of the delegation development.
    - [Math.exp] is read as the real exponential. *)

From Stdlib Require Import Reals Lra Ascii String.
From stdpp Require Import gmap strings list fin_maps pretty sorting.

Local Open Scope string_scope.
Local Open Scope Z_scope.

(** ** Text helpers: [String.prototype.includes] and the session-id pattern *)

Module Text.

(** [startsWith s sub]: [sub] occurs in [s] at offset 0. *)
Fixpoint startsWith (s sub : string) {struct sub} : bool :=
  match sub with
  | EmptyString => true
  | String c sub' =>
      match s with
      | EmptyString => false
      | String d s' => if Ascii.eqb c d then startsWith s' sub' else false
      end
  end.

(** [includes s sub] is [s.includes(sub)]: some offset of [s] starts [sub]. *)
Fixpoint includes (s sub : string) : bool :=
  startsWith s sub ||
  match s with
  | EmptyString => false
  | String _ s' => includes s' sub
  end.

(** [Number.prototype.toString] on an integral millisecond count: the plain
    decimal digits, with a leading minus sign below zero (JavaScript switches
    to exponent notation only from 10^21 on, far beyond any timestamp). *)
Definition toString (n : Z) : string := pretty n.

(** The character class [[0-9a-f]] under the [i] flag. *)
Definition isHexDigit (c : ascii) : bool :=
  let n := nat_of_ascii c in
  ((48 <=? n) && (n <=? 57) || (97 <=? n) && (n <=? 102)
   || (65 <=? n) && (n <=? 70))%nat.

Definition isDash (c : ascii) : bool := Ascii.eqb c "-"%char.

(** [hexRun n s]: consume exactly [n] characters of the class from [s]. *)
Fixpoint hexRun (n : nat) (s : string) : option string :=
  match n with
  | O => Some s
  | S n' =>
      match s with
      | String c s' => if isHexDigit c then hexRun n' s' else None
      | EmptyString => None
      end
  end.

Definition dash (s : string) : option string :=
  match s with
  | String c s' => if isDash c then Some s' else None
  | EmptyString => None
  end.

(** The pieces of the session-id pattern: a counted run of the class, or a
    literal dash. *)
Inductive Atom := Hex (n : nat) | Dash.

(** Anchored matching ([^ ... $], no multiline flag): the atoms must consume
    the whole input. *)
Fixpoint matchAtoms (p : list Atom) (s : string) : bool :=
  match p with
  | [] => match s with EmptyString => true | String _ _ => false end
  | Hex n :: p' =>
      match hexRun n s with Some s' => matchAtoms p' s' | None => false end
  | Dash :: p' =>
      match dash s with Some s' => matchAtoms p' s' | None => false end
  end.

(** What a match means: the input splits into the pieces, in order. *)
Fixpoint allHex (s : string) : Prop :=
  match s with
  | EmptyString => True
  | String c s' => isHexDigit c = true /\ allHex s'
  end.

Fixpoint splitsInto (p : list Atom) (s : string) : Prop :=
  match p with
  | [] => s = ""
  | Hex n :: p' =>
      exists group rest,
        s = group ++ rest /\ String.length group = n /\ allHex group
        /\ splitsInto p' rest
  | Dash :: p' => exists rest, s = String "-" rest /\ splitsInto p' rest
  end.

(** [/^[0-9a-f]{8}-[0-9a-f]{4}-[0-9a-f]{4}-[0-9a-f]{4}-[0-9a-f]{12}$/i] *)
Definition sessionIdPattern : list Atom :=
  [Hex 8; Dash; Hex 4; Dash; Hex 4; Dash; Hex 4; Dash; Hex 12].

Definition isSessionId (s : string) : bool := matchAtoms sessionIdPattern s.




End Text.

(** ** Message model (types/waku.ts as listed in the API reference) *)

Inductive MessageType :=
  CELL | POST | COMMENT | VOTE | MODERATE | USER_PROFILE_UPDATE.

Inductive EModerationAction := ActModerate | ActUnmoderate.
Inductive ModerationTarget := TargetPost | TargetComment | TargetUser.
Inductive EDisplayPreference := CALL_SIGN | WALLET_ADDRESS.

(** The kind-specific fields of a message. *)
Inductive Body :=
| CellBody (name description : string) (icon : option string)
| PostBody (cellId title content : string)
| CommentBody (postId content : string)
| VoteBody (targetId : string) (value : Z)
| ModerateBody (action : EModerationAction) (targetType : ModerationTarget)
               (targetId cellId : string) (reason : option string)
| ProfileBody (callSign : option string) (displayPreference : EDisplayPreference).

Definition bodyType (b : Body) : MessageType :=
  match b with
  | CellBody _ _ _ => CELL
  | PostBody _ _ _ => POST
  | CommentBody _ _ => COMMENT
  | VoteBody _ _ => VOTE
  | ModerateBody _ _ _ _ _ => MODERATE
  | ProfileBody _ _ => USER_PROFILE_UPDATE
  end.

Definition typeName (t : MessageType) : string :=
  match t with
  | CELL => "cell" | POST => "post" | COMMENT => "comment" | VOTE => "vote"
  | MODERATE => "moderate" | USER_PROFILE_UPDATE => "user_profile_update"
  end.

(** The message without its signature fields: exactly what
    [JSON.stringify({...message, signature: undefined, browserPubKey:
    undefined, delegationProof: undefined})] serialises. *)
Record UnsignedMessage := mkUnsigned {
  id : string;
  timestamp : Z;
  author : string;
  body : Body;
}.

Record DelegationProof := mkProof {
  authMessage : string;
  walletSignature : string;
  expiryTimestamp : Z;
  walletAddress : string;
}.

Record OpchanMessage := mkMessage {
  unsigned : UnsignedMessage;
  signature : string;
  browserPubKey : string;
  delegationProof : option DelegationProof;
}.

Definition msgType (m : OpchanMessage) : MessageType := bodyType (body (unsigned m)).

(** ** Delegation: signing and verification *)

Module Delegation.

(** Delegation records kept by DelegationStorage (architecture.md,
    "Delegation Process"). *)
Record WalletDelegationInfo := mkWalletDelegation {
  w_authMessage : string;
  w_walletSignature : string;
  w_expiryTimestamp : Z;
  w_walletAddress : string;
  w_browserPublicKey : string;
  w_browserPrivateKey : string;
  w_nonce : string;
}.

Record AnonymousDelegationInfo := mkAnonymousDelegation {
  a_sessionId : string;
  a_browserPublicKey : string;
  a_browserPrivateKey : string;
  a_expiryTimestamp : Z;
  a_nonce : string;
}.

Inductive DelegationInfo :=
| WalletDelegation (w : WalletDelegationInfo)
| AnonymousDelegation (a : AnonymousDelegationInfo).

(** What a running DelegationManager can observe besides its argument: the
    wall clock ([Date.now()]) and the stored delegation. *)
Record Env := mkEnv {
  clock : Z;
  stored : option DelegationInfo;
}.

(** Computations that may read the environment. *)
Definition Run (A : Type) : Type := Env -> A.
Definition ret {A} (a : A) : Run A := fun _ => a.
Definition bind {A B} (c : Run A) (k : A -> Run B) : Run B :=
  fun e => k (c e) e.
Definition dateNow : Run Z := clock.
Definition loadDelegation : Run (option DelegationInfo) := stored.

Notation "'await' x ':=' c 'in' k" := (bind c (fun x => k))
  (at level 10, x name, c at level 100, k at level 200).

Section Crypto.

(** [ed25519.verify(hexToBytes(sig), sha512(payload), hexToBytes(pub))] *)
Variable ed25519_verify : string -> UnsignedMessage -> string -> bool.
(** viem's [verifyMessage({account, message, signature})] *)
Variable verifyWalletSignature : string -> string -> string -> bool.
(** [ed25519.sign(sha512(payload), privateKey)], hex encoded *)
Variable ed25519_sign : UnsignedMessage -> string -> string.

(** architecture.md, "Verification Logic". *)
Definition verifyMessage (message : OpchanMessage) : Run bool :=
  (* 1. Verify message signature with browser public key *)
  let messagePayload := unsigned message in
  await signatureValid := ret (ed25519_verify (signature message) messagePayload
                                         (browserPubKey message)) in
  if negb signatureValid then ret false else
  (* 2. Verify delegation authorization *)
  match delegationProof message with
  | Some proof =>
      await walletSigValid := ret (verifyWalletSignature (walletAddress proof)
                               (authMessage proof) (walletSignature proof)) in
      if negb walletSigValid then ret false else
      if negb (Text.includes (authMessage proof) (browserPubKey message))
      then ret false else
      if negb (Text.includes (authMessage proof) (walletAddress proof))
      then ret false else
      if negb (Text.includes (authMessage proof)
                 (Text.toString (expiryTimestamp proof)))
      then ret false else
      ret true
  | None =>
      ret (Text.isSessionId (author (unsigned message)))
  end.

Definition delegationExpiry (d : DelegationInfo) : Z :=
  match d with
  | WalletDelegation w => w_expiryTimestamp w
  | AnonymousDelegation a => a_expiryTimestamp a
  end.

Definition delegationPublicKey (d : DelegationInfo) : string :=
  match d with
  | WalletDelegation w => w_browserPublicKey w
  | AnonymousDelegation a => a_browserPublicKey a
  end.

Definition delegationPrivateKey (d : DelegationInfo) : string :=
  match d with
  | WalletDelegation w => w_browserPrivateKey w
  | AnonymousDelegation a => a_browserPrivateKey a
  end.

(** The proof attached to outgoing messages: wallet delegations carry one,
    anonymous delegations have nothing to attach. *)
Definition delegationProofOf (d : DelegationInfo) : option DelegationProof :=
  match d with
  | WalletDelegation w =>
      Some {| authMessage := w_authMessage w;
              walletSignature := w_walletSignature w;
              expiryTimestamp := w_expiryTimestamp w;
              walletAddress := w_walletAddress w |}
  | AnonymousDelegation _ => None
  end.

(** DelegationManager.signMessage, after the "Signature Process" of the API
    reference (steps 1 to 6): load the delegation, refuse when it is missing
    or no longer valid (a delegation is valid strictly before its expiry),
    sign the payload with the browser key, attach signature, public key and
    delegation proof. *)
Definition signMessage (message : UnsignedMessage) : Run (option OpchanMessage) :=
  await delegation := loadDelegation in
  match delegation with
  | None => ret None
  | Some d =>
      await now := dateNow in
      if delegationExpiry d <=? now then ret None else
      let signature := ed25519_sign message (delegationPrivateKey d) in
      ret (Some {| unsigned := message;
                   signature := signature;
                   browserPubKey := delegationPublicKey d;
                   delegationProof := delegationProofOf d |})
  end.

End Crypto.

End Delegation.

(** ** The local replica *)

Module Replica.

Inductive ApplyResult := Rejected | Duplicate | Accepted.

(** Dedup key: the [type:id:timestamp] triple. *)
Definition messageKey (m : OpchanMessage) : string * string * Z :=
  (typeName (msgType m), id (unsigned m), timestamp (unsigned m)).

Definition targetName (t : ModerationTarget) : string :=
  match t with
  | TargetPost => "post" | TargetComment => "comment" | TargetUser => "user"
  end.

(** The in-memory indexes, the dedup set, the sync stamp and the durable
    log of accepted messages. *)
Record State := mkState {
  cells : gmap string OpchanMessage;
  posts : gmap string OpchanMessage;
  comments : gmap string OpchanMessage;
  votes : gmap (string * string) OpchanMessage;
  moderations : gmap (string * string * string) OpchanMessage;
  userIdentities : gmap string OpchanMessage;
  seen : gset (string * string * Z);
  lastSync : option Z;
  durable : list OpchanMessage;
}.

Definition empty : State :=
  {| cells := ∅; posts := ∅; comments := ∅; votes := ∅; moderations := ∅;
     userIdentities := ∅; seen := ∅; lastSync := None; durable := [] |}.

(** Modelled from the spec: the cell, post, comment and profile case of
    LocalDatabase.applyMessage (section 4.4, step 4): "insert if absent". *)
Definition insertIfAbsent {K} `{Countable K} (k : K) (m : OpchanMessage)
    (index : gmap K OpchanMessage) : gmap K OpchanMessage :=
  match index !! k with
  | Some _ => index
  | None => <[k := m]> index
  end.


(** Modelled from the spec: the vote case of LocalDatabase.applyMessage,
    which is not among the sources. Section 4.4, step 4: "upsert the
    (target_id, author) slot iff the incoming timestamp is strictly greater
    than the stored one". *)
Definition upsertVote (k : string * string) (m : OpchanMessage)
    (index : gmap (string * string) OpchanMessage) :=
  match index !! k with
  | Some old =>
      if timestamp (unsigned old) <? timestamp (unsigned m)
      then <[k := m]> index else index
  | None => <[k := m]> index
  end.

(** Modelled from the spec: the order on moderation records of section 4.4,
    step 4: latest timestamp, ties broken by the lexicographically greater
    message id. *)
Definition supersedes (m old : OpchanMessage) : bool :=
  (timestamp (unsigned old) <? timestamp (unsigned m))
  || ((timestamp (unsigned old) =? timestamp (unsigned m))
      && String.ltb (id (unsigned old)) (id (unsigned m))).

(** Modelled from the spec: the moderation case of
    LocalDatabase.applyMessage (section 4.4, step 4). *)
Definition upsertModeration (k : string * string * string) (m : OpchanMessage)
    (index : gmap (string * string * string) OpchanMessage) :=
  match index !! k with
  | Some old => if supersedes m old then <[k := m]> index else index
  | None => <[k := m]> index
  end.

(** Modelled from the spec: the index update of LocalDatabase.applyMessage
    (section 4.4, step 4), one primary index per message kind. *)
Definition store (m : OpchanMessage) (r : State) : State :=
  let u := unsigned m in
  match body u with
  | CellBody _ _ _ =>
      mkState (insertIfAbsent (id u) m (cells r)) (posts r) (comments r)
              (votes r) (moderations r) (userIdentities r)
              (seen r) (lastSync r) (durable r)
  | PostBody _ _ _ =>
      mkState (cells r) (insertIfAbsent (id u) m (posts r)) (comments r)
              (votes r) (moderations r) (userIdentities r)
              (seen r) (lastSync r) (durable r)
  | CommentBody _ _ =>
      mkState (cells r) (posts r) (insertIfAbsent (id u) m (comments r))
              (votes r) (moderations r) (userIdentities r)
              (seen r) (lastSync r) (durable r)
  | VoteBody targetId _ =>
      mkState (cells r) (posts r) (comments r)
              (upsertVote (targetId, author u) m (votes r))
              (moderations r) (userIdentities r)
              (seen r) (lastSync r) (durable r)
  | ModerateBody _ targetType targetId cellId _ =>
      mkState (cells r) (posts r) (comments r) (votes r)
              (upsertModeration (cellId, targetName targetType, targetId) m
                 (moderations r))
              (userIdentities r) (seen r) (lastSync r) (durable r)
  | ProfileBody _ _ =>
      mkState (cells r) (posts r) (comments r) (votes r) (moderations r)
              (insertIfAbsent (author u) m (userIdentities r))
              (seen r) (lastSync r) (durable r)
  end.

Definition bumpSync (t : Z) (last : option Z) : option Z :=
  match last with
  | Some l => Some (Z.max l t)
  | None => Some t
  end.

(** Modelled from the spec: the bookkeeping of LocalDatabase.applyMessage
    (section 4.4, steps 5 and 6): persist, record the dedup key, bump the
    sync stamp to [max(last_sync_ms, message.timestamp)]. *)
Definition commit (m : OpchanMessage) (r : State) : State :=
  mkState (cells r) (posts r) (comments r) (votes r) (moderations r)
          (userIdentities r)
          ({[messageKey m]} ∪ seen r)
          (bumpSync (timestamp (unsigned m)) (lastSync r))
          (durable r ++ [m])%list.



Section Apply.

(** Steps 1 and 2, structural validation and cryptographic verification, are
    the injected MessageValidator. *)
Variable isValidMessage : OpchanMessage -> bool.

(** Modelled from the spec: LocalDatabase.applyMessage is not among the
    sources (only its documentation and its callers are); this follows the
    [apply_message] algorithm of section 4.4, steps 1 to 7. *)
Definition applyMessage (r : State) (m : OpchanMessage) : State * ApplyResult :=
  if negb (isValidMessage m) then (r, Rejected)
  else if decide (messageKey m ∈ seen r) then (r, Duplicate)
  else (commit m (store m r), Accepted).

(** Feeding a stream of messages, keeping the state only. *)
Definition applyAll (r : State) (ms : list OpchanMessage) : State :=
  foldl (fun r m => fst (applyMessage r m)) r ms.

(** The boolean the TypeScript method returns. *)
Definition wasNew (res : ApplyResult) : bool :=
  match res with Accepted => true | _ => false end.

End Apply.

End Replica.

(** ** Forum read models (types/forum.ts) *)

Module Post.
Record t := mk {
  id : string; cellId : string; title : string; content : string;
  timestamp : Z; author : string;
}.
End Post.

Module Comment.
Record t := mk {
  id : string; postId : string; content : string;
  timestamp : Z; author : string;
}.
End Comment.

Module Vote.
Record t := mk {
  id : string; targetId : string; value : Z;
  timestamp : Z; author : string;
}.
End Vote.

Module Cell.
Record t := mk {
  id : string; name : string; description : string;
  timestamp : Z; author : string;
}.
End Cell.

(** ** Relevance scoring *)

Module Relevance.

(** [verifications.get(address)] used as a condition: a missing entry is
    [undefined], hence falsy. *)
Definition isVerified (verifications : gmap string bool) (address : string) : bool :=
  default false (verifications !! address).

Definition isUpvote (v : Vote.t) : bool := Vote.value v =? 1.
Definition isDownvote (v : Vote.t) : bool := Vote.value v =? -1.

(** The score before time decay and moderation, accumulated as in
    [calculateScore]. All quantities are small integers. *)
Definition engagementScore (post : Post.t) (votes : list Vote.t)
    (comments : list Comment.t) (verifications : gmap string bool) : Z :=
  (* Base score *)
  let score := 100 in
  (* Engagement *)
  let upvotes := length (List.filter isUpvote votes) in
  let downvotes := length (List.filter isDownvote votes) in
  let score := score + (Z.of_nat upvotes * 10 + Z.of_nat (length comments) * 3) in
  (* Verification bonuses *)
  let score := if isVerified verifications (Post.author post)
               then score + 20 else score in
  let verifiedUpvoters :=
    length (List.filter
              (fun v => isUpvote v && isVerified verifications (Vote.author v))
              votes) in
  let score := score + Z.of_nat verifiedUpvoters * 5 in
  let verifiedCommenters :=
    size (list_to_set
            (List.filter (isVerified verifications)
                         (List.map Comment.author comments)) : gset string) in
  let score := score + Z.of_nat verifiedCommenters * 10 in
  score.

Definition msPerDay : Z := 1000 * 60 * 60 * 24.

Definition daysOld (now : Z) (post : Post.t) : R :=
  (IZR (now - Post.timestamp post) / IZR msPerDay)%R.

(** [Math.exp(-0.693 * daysOld / 7)] *)
Definition timeDecay (days : R) : R := exp (-0.693 * days / 7).

(** architecture.md, "Scoring Algorithm"; [now] is the reading of
    [Date.now()]. The moderation map holds one record per moderated post. *)
Definition calculateScore {M : Type} (now : Z) (post : Post.t)
    (votes : list Vote.t) (comments : list Comment.t)
    (verifications : gmap string bool) (moderations : gmap string M) : R :=
  let score := IZR (engagementScore post votes comments verifications) in
  (* Time decay (exponential) *)
  let decay := timeDecay (daysOld now post) in
  let score := (score * decay)%R in
  (* Moderation penalty *)
  let score := if decide (is_Some (moderations !! Post.id post))
               then (score * 0.5)%R else score in
  Rmax 0 score.

(** The score as the specification words it. *)
Definition specUpvotes (votes : list Vote.t) : nat :=
  length (List.filter (fun v => Vote.value v =? 1) votes).

Definition specVerifiedUpvoters (votes : list Vote.t)
    (verifications : gmap string bool) : nat :=
  length (List.filter
            (fun v => (Vote.value v =? 1)
                      && bool_decide (verifications !! Vote.author v = Some true))
            votes).

Definition specVerifiedCommenters (comments : list Comment.t)
    (verifications : gmap string bool) : nat :=
  length (remove_dups
            (List.filter
               (fun a => bool_decide (verifications !! a = Some true))
               (List.map Comment.author comments))).

Definition specPoints (post : Post.t) (votes : list Vote.t)
    (comments : list Comment.t) (verifications : gmap string bool) : Z :=
  100 + 10 * Z.of_nat (specUpvotes votes) + 3 * Z.of_nat (length comments)
  + (if bool_decide (verifications !! Post.author post = Some true)
     then 20 else 0)
  + 5 * Z.of_nat (specVerifiedUpvoters votes verifications)
  + 10 * Z.of_nat (specVerifiedCommenters comments verifications).

Definition specModFactor {M : Type} (post : Post.t) (moderations : gmap string M) : R :=
  if bool_decide (is_Some (moderations !! Post.id post)) then 0.5%R else 1%R.

(** [rate] is the decay constant: the specification writes [ln 2], the
    implementation the literal [0.693]. *)
Definition specScore {M : Type} (rate : R) (now : Z) (post : Post.t)
    (votes : list Vote.t) (comments : list Comment.t)
    (verifications : gmap string bool) (moderations : gmap string M) : R :=
  Rmax 0 (IZR (specPoints post votes comments verifications)
          * exp (- rate * daysOld now post / 7)
          * specModFactor post moderations)%R.

End Relevance.

(** ** Derived views of the content hook (useContent) *)

Module Content.

(** *** commentsByPost *)

(** [(map[c.postId] ||= []).push(c)] *)
Definition pushComment (map : gmap string (list Comment.t)) (c : Comment.t)
    : gmap string (list Comment.t) :=
  <[Comment.postId c := (default [] (map !! Comment.postId c) ++ [c])%list]> map.

(** [Array.prototype.sort((a, b) => a.timestamp - b.timestamp)]: a stable
    sort; an element goes behind the earlier ones that compare equal. *)
Fixpoint insertByTimestamp (c : Comment.t) (sorted : list Comment.t) : list Comment.t :=
  match sorted with
  | [] => [c]
  | d :: rest =>
      if Comment.timestamp c <? Comment.timestamp d
      then c :: d :: rest
      else d :: insertByTimestamp c rest
  end.

Definition sortByTimestamp (l : list Comment.t) : list Comment.t :=
  foldl (fun sorted c => insertByTimestamp c sorted) [] l.

Definition commentsByPost (comments : list Comment.t) : gmap string (list Comment.t) :=
  let map := foldl pushComment ∅ comments in
  sortByTimestamp <$> map.


Definition commentsOn (postId : string) (comments : list Comment.t) : list Comment.t :=
  List.filter (fun c => String.eqb (Comment.postId c) postId) comments.

(** *** cellsWithStats *)

Record Stats := mkStats {
  postCount : nat;
  activeUsers : gset string;
  recentActivity : nat;
}.

Definition freshStats : Stats :=
  {| postCount := 0; activeUsers := ∅; recentActivity := 0 |}.

Definition recentWindowMs : Z := 7 * 24 * 60 * 60 * 1000.

Definition isRecent (now timestamp : Z) : bool := now - timestamp <=? recentWindowMs.

(** [entry.postCount += 1; entry.activeUsers.add(p.author);
    if (now - p.timestamp <= recentWindowMs) entry.recentActivity += 1] *)
Definition recordPost (now : Z) (p : Post.t) (entry : Stats) : Stats :=
  mkStats (postCount entry + 1)
          ({[Post.author p]} ∪ activeUsers entry)
          (if isRecent now (Post.timestamp p)
           then recentActivity entry + 1 else recentActivity entry).

(** Body of the loop over [content.posts]. *)
Definition countPost (now : Z) (byCell : gmap string Stats) (p : Post.t)
    : gmap string Stats :=
  let entry := default freshStats (byCell !! Post.cellId p) in
  <[Post.cellId p := recordPost now p entry]> byCell.

(** [content.posts.find(pp => pp.id === c.postId)] *)
Definition findPost (posts : list Post.t) (postId : string) : option Post.t :=
  List.find (fun pp => String.eqb (Post.id pp) postId) posts.

(** [entry.activeUsers.add(c.author);
    if (now - c.timestamp <= recentWindowMs) entry.recentActivity += 1] *)
Definition recordComment (now : Z) (c : Comment.t) (entry : Stats) : Stats :=
  mkStats (postCount entry)
          ({[Comment.author c]} ∪ activeUsers entry)
          (if isRecent now (Comment.timestamp c)
           then recentActivity entry + 1 else recentActivity entry).

(** Body of the loop over [content.comments]. *)
Definition countComment (now : Z) (posts : list Post.t)
    (byCell : gmap string Stats) (c : Comment.t) : gmap string Stats :=
  match findPost posts (Comment.postId c) with
  | None => byCell
  | Some post =>
      let entry := default freshStats (byCell !! Post.cellId post) in
      <[Post.cellId post := recordComment now c entry]> byCell
  end.


Record CellWithStats := mkCellWithStats {
  cell : Cell.t;
  cell_postCount : nat;
  cell_activeUsers : nat;
  cell_recentActivity : nat;
}.

Definition cellsWithStats (now : Z) (cells : list Cell.t) (posts : list Post.t)
    (comments : list Comment.t) : list CellWithStats :=
  let byCell := foldl (countPost now) ∅ posts in
  let byCell := foldl (countComment now posts) byCell comments in
  List.map (fun cell =>
              let stats := default freshStats (byCell !! Cell.id cell) in
              mkCellWithStats cell (postCount stats) (size (activeUsers stats))
                              (recentActivity stats))
           cells.








End Content.

(** ** Following *)

Module Following.

Record t := mk {
  id : string;
  userId : string;
  followedAddress : string;
  followedAt : Z;
}.

(** The [following] collection of the database cache, keyed by record id. *)
Abbreviation Store := (gmap string t).

(** [`${userId}:${followedAddress}`] *)
Definition followingId (userId followedAddress : string) : string :=
  userId ++ ":" ++ followedAddress.

(** Modelled from the spec: LocalDatabase.addFollowing, which is not among
    the sources. The collection is the map [following: map<id -> Following>]
    of section 4.4; adding files the record under its id. *)
Definition db_addFollowing (f : t) (db : Store) : Store := <[id f := f]> db.

(** Modelled from the spec: LocalDatabase.removeFollowing, which is not
    among the sources; removes the record filed under the id. *)
Definition db_removeFollowing (followingId : string) (db : Store) : Store :=
  delete followingId db.

(** Modelled from the spec: LocalDatabase.isFollowing, which is not among
    the sources; a user follows an address when the collection holds the
    record with id [user_id + ":" + followed_address] (section 3). *)
Definition db_isFollowing (db : Store) (userId followedAddress : string) : bool :=
  bool_decide (is_Some (db !! followingId userId followedAddress)).

(** FollowingService; [now] is the reading of [Date.now()], the database is
    threaded through. *)
Definition followUser (now : Z) (userId followedAddress : string) (db : Store)
    : Store * t :=
  let following := {| id := followingId userId followedAddress;
                      userId := userId;
                      followedAddress := followedAddress;
                      followedAt := now |} in
  (db_addFollowing following db, following).

Definition unfollowUser (userId followedAddress : string) (db : Store) : Store :=
  let followingId := followingId userId followedAddress in
  db_removeFollowing followingId db.

Definition toggleFollow (now : Z) (userId followedAddress : string) (db : Store)
    : Store * bool :=
  let isFollowing := db_isFollowing db userId followedAddress in
  if isFollowing
  then (unfollowUser userId followedAddress db, false)
  else (fst (followUser now userId followedAddress db), true).

Definition isFollowing (db : Store) (userId followedAddress : string) : bool :=
  db_isFollowing db userId followedAddress.

End Following.

(** ** Sample data used by the examples *)

Module Sample.

(** Test doubles for the external cryptography: every signature checks. *)
Definition trustingEd25519 (_ : string) (_ : UnsignedMessage) (_ : string) : bool := true.
Definition trustingWallet (_ _ _ : string) : bool := true.
Definition plainSign (_ : UnsignedMessage) (privateKey : string) : string :=
  "sig/" ++ privateKey.

Definition deviceKey : string :=
  "7f2c1a9e4b6d8053c1e2f4a6b8d0e2f4a6c8e0a2c4e6f80123456789abcdef01".
Definition otherDeviceKey : string :=
  "0a1b2c3d4e5f60718293a4b5c6d7e8f90a1b2c3d4e5f60718293a4b5c6d7e8f9".
Definition wallet : string := "0x742d35cc6634c0532925a3b844bc9e7595f0beb1".
Definition expiry : Z := 1735689600000.

Definition walletAuthMessage : string :=
  "I, " ++ wallet ++ ", authorize browser key " ++ deviceKey
  ++ " until " ++ Text.toString expiry ++ " (nonce: 5d41402a)".

Definition walletProof : DelegationProof :=
  {| authMessage := walletAuthMessage;
     walletSignature := "0xwalletsig";
     expiryTimestamp := expiry;
     walletAddress := wallet |}.

Definition helloPost (author : string) : UnsignedMessage :=
  {| id := "p1"; timestamp := 1000; author := author;
     body := PostBody "c1" "Hi" "World" |}.

(** A wallet user's post, signed by the delegated device key. *)
Definition walletPost : OpchanMessage :=
  {| unsigned := helloPost wallet;
     signature := "sig/device";
     browserPubKey := deviceKey;
     delegationProof := Some walletProof |}.

(** The same post signed by another device key, carrying the proof issued
    for [deviceKey]. *)
Definition hijackedPost : OpchanMessage :=
  {| unsigned := helloPost wallet;
     signature := "sig/other";
     browserPubKey := otherDeviceKey;
     delegationProof := Some walletProof |}.

Definition sessionId : string := "a3f5c2d1-8e9b-4c7a-b6d5-3e2f1a0b9c8d".

Definition anonymousPost (author : string) : OpchanMessage :=
  {| unsigned := helloPost author;
     signature := "sig/device";
     browserPubKey := deviceKey;
     delegationProof := None |}.



Definition walletDelegation : Delegation.DelegationInfo :=
  Delegation.WalletDelegation
    {| Delegation.w_authMessage := walletAuthMessage;
       Delegation.w_walletSignature := "0xwalletsig";
       Delegation.w_expiryTimestamp := expiry;
       Delegation.w_walletAddress := wallet;
       Delegation.w_browserPublicKey := deviceKey;
       Delegation.w_browserPrivateKey := "device";
       Delegation.w_nonce := "5d41402a" |}.

(** Two votes of one anonymous author on the post [p1], cast at the same
    millisecond. *)
Definition vote (voteId : string) (value at_ : Z) : OpchanMessage :=
  {| unsigned := {| id := voteId; timestamp := at_; author := sessionId;
                    body := VoteBody "p1" value |};
     signature := "sig/device";
     browserPubKey := deviceKey;
     delegationProof := None |}.

Definition upvoteA : OpchanMessage := vote "a" 1 2000.
Definition downvoteB : OpchanMessage := vote "b" (-1) 2000.
Definition downvoteLater : OpchanMessage := vote "c" (-1) 3000.

Definition envAt (now : Z) (d : option Delegation.DelegationInfo) : Delegation.Env :=
  {| Delegation.clock := now; Delegation.stored := d |}.

(** A post by an ENS-verified author with ten upvotes from unverified
    users and no comments. *)
Definition rankedPost : Post.t :=
  {| Post.id := "p1"; Post.cellId := "c1"; Post.title := "Hi";
     Post.content := "World"; Post.timestamp := 1000; Post.author := wallet |}.

Definition upvoteBy (voter : string) : Vote.t :=
  {| Vote.id := "v-" ++ voter; Vote.targetId := "p1"; Vote.value := 1;
     Vote.timestamp := 2000; Vote.author := voter |}.

Definition tenUpvotes : list Vote.t :=
  List.map upvoteBy ["u0"; "u1"; "u2"; "u3"; "u4"; "u5"; "u6"; "u7"; "u8"; "u9"].

Definition verifications : gmap string bool := {[ wallet := true ]}.

Definition noModerations : gmap string OpchanMessage := ∅.

Definition sevenDaysMs : Z := 7 * Relevance.msPerDay.

(** A small forum: two cells, three posts, three comments; [now] is ten
    days after the epoch of the sample. *)
Definition forumNow : Z := 10 * Relevance.msPerDay.

Definition forumCells : list Cell.t :=
  [ {| Cell.id := "c1"; Cell.name := "general"; Cell.description := "all";
       Cell.timestamp := 10; Cell.author := wallet |};
    {| Cell.id := "c2"; Cell.name := "empty"; Cell.description := "none";
       Cell.timestamp := 20; Cell.author := wallet |} ].

Definition forumPost (postId cellId author : string) (at_ : Z) : Post.t :=
  {| Post.id := postId; Post.cellId := cellId; Post.title := "t";
     Post.content := "b"; Post.timestamp := at_; Post.author := author |}.

Definition forumPosts : list Post.t :=
  [ forumPost "p1" "c1" "alice" (9 * Relevance.msPerDay);
    forumPost "p2" "c1" "bob" (1 * Relevance.msPerDay);
    forumPost "p3" "c3" "carol" (9 * Relevance.msPerDay) ].

Definition forumComment (commentId postId author : string) (at_ : Z) : Comment.t :=
  {| Comment.id := commentId; Comment.postId := postId; Comment.content := "c";
     Comment.timestamp := at_; Comment.author := author |}.

Definition forumComments : list Comment.t :=
  [ forumComment "k1" "p1" "bob" (9 * Relevance.msPerDay + 5);
    forumComment "k2" "p2" "dave" (2 * Relevance.msPerDay);
    forumComment "k3" "p9" "erin" (9 * Relevance.msPerDay);
    forumComment "k4" "p1" "alice" (9 * Relevance.msPerDay + 1) ].

(** The validator of the examples: cryptographic verification with the
    trusting test doubles. *)
Definition validator (m : OpchanMessage) : bool :=
  Delegation.verifyMessage trustingEd25519 trustingWallet m (envAt 0 None).

End Sample.

(** ** More string helpers: [split], [slice] *)

Module Str.

(** [s.split(sep)] for a one-character separator: the pieces between the
    separators, the empty string giving one empty piece. *)
Fixpoint split (sep : ascii) (s : string) : list string :=
  match s with
  | EmptyString => [""]
  | String c s' =>
      if Ascii.eqb c sep then "" :: split sep s'
      else match split sep s' with
           | piece :: rest => String c piece :: rest
           | [] => [String c ""]
           end
  end.

(** [c] does not occur in [s]. *)
Fixpoint lacks (c : ascii) (s : string) : Prop :=
  match s with
  | EmptyString => True
  | String d s' => d <> c /\ lacks c s'
  end.

(** An index argument of [slice], resolved against the length: negative
    values count from the end, everything is clamped to [0, len]. *)
Definition clampIndex (len : nat) (i : Z) : nat :=
  if i <? 0 then Z.to_nat (Z.max (Z.of_nat len + i) 0)
  else Z.to_nat (Z.min i (Z.of_nat len)).

(** [s.slice(start, end)]; [end] defaults to the length. *)
Definition slice (s : string) (start : Z) (end_ : option Z) : string :=
  let len := String.length s in
  let from := clampIndex len start in
  let to := match end_ with Some e => clampIndex len e | None => len end in
  String.substring from (to - from) s.

(** A value used as a condition: [undefined] and the empty string are
    falsy. *)
Definition truthy (o : option string) : bool :=
  match o with
  | Some s => negb (String.eqb s "")
  | None => false
  end.

End Str.

(** ** Display names (architecture.md, "Display Name Resolution") *)

Module Identity.

Record UserIdentity := mkIdentity {
  address : string;
  ensName : option string;
  callSign : option string;
  displayPreference : EDisplayPreference;
}.

(** [`${address.slice(0, 6)}...${address.slice(-4)}`], also the fallback of
    FollowingCard. *)
Definition shortened (address : string) : string :=
  Str.slice address 0 (Some 6) ++ "..." ++ Str.slice address (-4) None.

(** [preference === EDisplayPreference.CALL_SIGN] *)
Definition isCallSign (preference : EDisplayPreference) : bool :=
  match preference with CALL_SIGN => true | WALLET_ADDRESS => false end.

Definition getDisplayName (identity : UserIdentity) : string :=
  (* Priority 1: Call sign (if preference is CALL_SIGN) *)
  if Str.truthy (callSign identity) && isCallSign (displayPreference identity)
  then default "" (callSign identity)
  (* Priority 2: ENS name *)
  else if Str.truthy (ensName identity)
  then default "" (ensName identity)
  (* Priority 3: Shortened address *)
  else shortened (address identity).

(** FollowingCard: [userInfo.displayName || truncatedAddress]. *)
Definition cardDisplayName (displayName : option string) (followedAddress : string)
    : string :=
  let truncatedAddress := shortened followedAddress in
  if Str.truthy displayName then default "" displayName else truncatedAddress.

End Identity.

(** ** [Array.prototype.sort] with a comparator *)

Module JsArray.

(** The element goes in front of the first one it compares below. *)
Fixpoint insertWith {A} (cmp : A -> A -> Z) (x : A) (sorted : list A) : list A :=
  match sorted with
  | [] => [x]
  | y :: rest =>
      if cmp x y <? 0 then x :: y :: rest else y :: insertWith cmp x rest
  end.

(** [[...l].sort(cmp)]: the sort is stable, so for a comparator that orders
    by a key the result is the one of inserting the elements in turn. *)
Definition sortWith {A} (cmp : A -> A -> Z) (l : list A) : list A :=
  foldl (fun sorted x => insertWith cmp x sorted) [] l.

(** [l.includes(x)] on strings. *)
Definition includes (l : list string) (x : string) : bool :=
  existsb (String.eqb x) l.

End JsArray.

(** ** The content hook, continued (useContent) *)

Module ContentHook.



(** [c.postId] is the id of some post. *)
Definition namesPost (posts : list Post.t) (c : Comment.t) : bool :=
  existsb (fun p => String.eqb (Post.id p) (Comment.postId c)) posts.

Inductive BookmarkType := BookmarkPost | BookmarkComment.

(** Modelled from the spec: the enum's string values, which are not among
    the sources (bookmark ids are ["post:" + target_id] and
    ["comment:" + target_id]); [removeBookmark] compares with ['post']. *)
Definition bookmarkTypeName (t : BookmarkType) : string :=
  match t with BookmarkPost => "post" | BookmarkComment => "comment" end.

(** The id of a bookmark, [`${type}:${targetId}`]. *)
Definition bookmarkId (t : BookmarkType) (targetId : string) : string :=
  bookmarkTypeName t ++ ":" ++ targetId.

(** removeBookmark: [const [typeStr, targetId] = bookmarkId.split(':')] and
    [typeStr === 'post' ? BookmarkType.POST : BookmarkType.COMMENT]; a
    missing second piece is [undefined]. *)
Definition parseBookmarkId (bookmarkId : string) : BookmarkType * option string :=
  let pieces := Str.split ":" bookmarkId in
  let typeStr := pieces !! 0%nat in
  let targetId := pieces !! 1%nat in
  let type := if bool_decide (typeStr = Some "post")
              then BookmarkPost else BookmarkComment in
  (type, targetId).

End ContentHook.

(** ** FollowingService, continued *)

Module FollowingService.

Import Following.

(** Modelled from the spec: LocalDatabase.getAllFollowing, which is not
    among the sources; the records of the [following] collection. *)
Definition db_getAllFollowing (db : Store) : list t := (map_to_list db).*2.

(** Modelled from the spec: LocalDatabase.getUserFollowing, which is not
    among the sources; the records of the collection whose [user_id] is the
    given user ("all following records for a user"). *)
Definition db_getUserFollowing (db : Store) (user : string) : list t :=
  List.filter (fun f => String.eqb (userId f) user) (db_getAllFollowing db).

(** Modelled from the spec: LocalDatabase.getFollowers, which is not among
    the sources; the records whose [followed_address] is the given address
    ("all users who follow a specific address"). *)
Definition db_getFollowers (db : Store) (followed : string) : list t :=
  List.filter (fun f => String.eqb (followedAddress f) followed)
              (db_getAllFollowing db).

Definition getFollowing (db : Store) (userId : string) : list string :=
  let following := db_getUserFollowing db userId in
  List.map followedAddress following.

Definition getFollowingRecords (db : Store) (userId : string) : list t :=
  db_getUserFollowing db userId.

Definition getFollowers (db : Store) (followedAddress : string) : list string :=
  let followers := db_getFollowers db followedAddress in
  List.map Following.userId followers.

Definition getFollowingCount (db : Store) (userId : string) : nat :=
  let following := db_getUserFollowing db userId in
  length following.

Definition getFollowersCount (db : Store) (followedAddress : string) : nat :=
  let followers := db_getFollowers db followedAddress in
  length followers.

(** A post as the forum shows it: the message and its author's address. *)
Record EnhancedPost := mkEnhancedPost {
  post : Post.t;
  authorAddress : string;
}.

(** [posts] is what [getDataFromCache()] yields. *)
Definition getFollowingPosts (db : Store) (posts : list EnhancedPost)
    (userId : string) : list EnhancedPost :=
  let following := getFollowing db userId in
  List.filter (fun post => JsArray.includes following (authorAddress post)) posts.

(** [Promise.all(following.map(f => localDatabase.removeFollowing(f.id)))] *)
Definition clearUserFollowing (db : Store) (userId : string) : Store :=
  let following := db_getUserFollowing db userId in
  foldl (fun db f => db_removeFollowing (id f) db) db following.

Definition getAllFollowing (db : Store) : list t := db_getAllFollowing db.

(** Every record is filed under the id made of its own fields, and user ids
    hold no colon (wallet addresses and session ids hold none). *)
Definition wellFiled (db : Store) : Prop :=
  forall k f, db !! k = Some f ->
              k = id f /\ id f = followingId (userId f) (followedAddress f)
              /\ Str.lacks ":" (userId f).

(** The record [followUser] files. *)
Definition recordOf (now : Z) (userId followedAddress : string) : t :=
  {| id := followingId userId followedAddress;
     userId := userId;
     followedAddress := followedAddress;
     followedAt := now |}.

End FollowingService.

(** ** The following page (FollowingPage.tsx) *)

Module Feed.

Import FollowingService.

Definition followedAddresses (following : list Following.t) : list string :=
  List.map Following.followedAddress following.

Definition followingPosts (posts : list EnhancedPost)
    (followedAddresses : list string) : list EnhancedPost :=
  List.filter (fun post => JsArray.includes followedAddresses (authorAddress post))
              posts.

(** [(a, b) => b.timestamp - a.timestamp] *)
Definition newestFirst (a b : EnhancedPost) : Z :=
  Post.timestamp (post b) - Post.timestamp (post a).

Definition sortedFollowingPosts (followingPosts : list EnhancedPost)
    : list EnhancedPost :=
  JsArray.sortWith newestFirst followingPosts.

(** Not older than the next one. *)
Definition notOlder (a b : EnhancedPost) : Prop :=
  Post.timestamp (post b) <= Post.timestamp (post a).

End Feed.

(** ** The follow actions of the content hook (useContent) *)

Module Hook.

Import Following.

(** What the actions touch: the database and the [following] slice of the
    store state. *)
Record State := mkState {
  database : Store;
  following : list Following.t;
}.

(** [setOpchanState(prev => ({...prev, content: {...prev.content,
    following: updated}}))] with [updated = getUserFollowing(address)]. *)
Definition refreshFollowing (address : string) (db : Store) : State :=
  {| database := db;
     following := FollowingService.db_getUserFollowing db address |}.

(** [session.currentUser?.address], as a condition. *)
Definition loggedIn (address : option string) : option string :=
  if Str.truthy address then address else None.

Definition toggleFollow (now : Z) (currentAddress : option string)
    (followedAddress : string) (st : State) : State * bool :=
  match loggedIn currentAddress with
  | None => (st, false)
  | Some address =>
      let '(db, isNowFollowing) :=
        Following.toggleFollow now address followedAddress (database st) in
      (refreshFollowing address db, isNowFollowing)
  end.

Definition followUser (now : Z) (currentAddress : option string)
    (followedAddress : string) (st : State) : State * bool :=
  match loggedIn currentAddress with
  | None => (st, false)
  | Some address =>
      let db := fst (Following.followUser now address followedAddress (database st)) in
      (refreshFollowing address db, true)
  end.

Definition unfollowUser (currentAddress : option string)
    (followedAddress : string) (st : State) : State * bool :=
  match loggedIn currentAddress with
  | None => (st, false)
  | Some address =>
      let db := Following.unfollowUser address followedAddress (database st) in
      (refreshFollowing address db, true)
  end.

Definition isFollowing (currentAddress : option string)
    (followedAddress : string) (st : State) : bool :=
  match loggedIn currentAddress with
  | None => false
  | Some address => Following.isFollowing (database st) address followedAddress
  end.

Definition clearAllFollowing (currentAddress : option string) (st : State) : State :=
  match loggedIn currentAddress with
  | None => st
  | Some address =>
      let db := FollowingService.clearUserFollowing (database st) address in
      refreshFollowing address db
  end.

(** FollowButton: nothing is rendered for one's own address or without a
    user; otherwise the label says what a click will do. *)
Definition followButtonLabel (currentAddress : option string) (address : string)
    (st : State) : option string :=
  let isCurrentlyFollowing := isFollowing currentAddress address st in
  let isOwnAddress := bool_decide (currentAddress = Some address) in
  if isOwnAddress || negb (bool_decide (is_Some currentAddress)) then None
  else Some (if isCurrentlyFollowing then "Unfollow" else "Follow").

End Hook.

(** ** The delegation process and the verification process (architecture.md,
    "Delegation Subsystem") *)

Module DelegationProcess.

Import Delegation.

(** The line break of the template literal. *)
Definition nl : string := String "010"%char "".

Section Process.

(** [new Date(t).toISOString()] *)
Variable toISOString : Z -> string.
(** [DelegationCrypto.verifyRaw(payload, signature, publicKey)] *)
Variable verifyRaw : UnsignedMessage -> string -> string -> bool.
(** [DelegationCrypto.verifyWalletSignature(authMessage, walletSignature,
    walletAddress)] *)
Variable verifyWalletSignature : string -> string -> string -> bool.

(** 2. Create authorization message. *)
Definition createAuthMessage (publicKey walletAddress : string)
    (expiryTimestamp : Z) (nonce : string) : string :=
  nl ++ "Authorize browser key:" ++ nl
  ++ "  Public Key: " ++ publicKey ++ nl
  ++ "  Wallet: " ++ walletAddress ++ nl
  ++ "  Expires: " ++ toISOString expiryTimestamp ++ nl
  ++ "  Nonce: " ++ nonce ++ nl.

(** Steps 1 to 4 of the wallet delegation process; the key pair and the
    nonce are generated outside, [signFunction] is the wallet. *)
Definition delegate (signFunction : string -> string)
    (publicKey privateKey walletAddress : string) (expiryTimestamp : Z)
    (nonce : string) : WalletDelegationInfo :=
  let authMessage := createAuthMessage publicKey walletAddress expiryTimestamp nonce in
  let walletSignature := signFunction authMessage in
  {| w_authMessage := authMessage;
     w_walletSignature := walletSignature;
     w_expiryTimestamp := expiryTimestamp;
     w_walletAddress := walletAddress;
     w_browserPublicKey := publicKey;
     w_browserPrivateKey := privateKey;
     w_nonce := nonce |}.

(** "Verification Process": the variant that looks for the message's author
    in the authorization message. *)
Definition verificationProcess (message : OpchanMessage) : bool :=
  (* 1. Verify message signature *)
  let messagePayload := unsigned message in
  let signatureValid :=
    verifyRaw messagePayload (signature message) (browserPubKey message) in
  if negb signatureValid then false else
  (* 2. Verify delegation authorization *)
  match delegationProof message with
  | Some proof =>
      let proofValid :=
        verifyWalletSignature (authMessage proof) (walletSignature proof)
                              (walletAddress proof) in
      let authMessageValid :=
        Text.includes (authMessage proof) (browserPubKey message)
        && Text.includes (authMessage proof) (author (unsigned message))
        && Text.includes (authMessage proof)
             (Text.toString (expiryTimestamp proof)) in
      proofValid && authMessageValid
  | None =>
      Text.isSessionId (author (unsigned message))
  end.

End Process.

(** A decimal digit. *)
Definition isDigit (c : ascii) : bool :=
  let n := nat_of_ascii c in ((48 <=? n) && (n <=? 57))%nat.

Fixpoint allDigits (s : string) : Prop :=
  match s with
  | EmptyString => True
  | String c s' => isDigit c = true /\ allDigits s'
  end.

Fixpoint noDigits (s : string) : Prop :=
  match s with
  | EmptyString => True
  | String c s' => isDigit c = false /\ noDigits s'
  end.

End DelegationProcess.

(** ** The dedup key as the string it is (architecture.md, "Deduplication") *)

Module Dedup.

(** [`${message.type}:${message.id}:${message.timestamp}`] *)
Definition messageKey (message : OpchanMessage) : string :=
  typeName (msgType message) ++ ":" ++ id (unsigned message) ++ ":"
  ++ Text.toString (timestamp (unsigned message)).

(** The composite key of the votes collection, [targetId:author]. *)
Definition voteKey (targetId author : string) : string :=
  targetId ++ ":" ++ author.

End Dedup.

(** ** Stored delegations *)

Module DelegationChecks.

Import Delegation.

Section Checks.

(** viem's [verifyMessage({account, message, signature})] *)
Variable verifyWalletSignature : string -> string -> string -> bool.


End Checks.

End DelegationChecks.

(** ** More sample data *)

Module Scenario.

Import Following.

(** Alice follows Bob, and nothing else is on file. *)
Definition aliceFollowsBob : Store :=
  fst (Following.followUser 1000 "alice" "bob" ∅).

(** Alice's browser, showing what she follows. *)
Definition aliceState : Hook.State :=
  Hook.refreshFollowing "alice" aliceFollowsBob.



(** [new Date(Sample.expiry).toISOString()] *)
Definition isoDate (_ : Z) : string := "2025-01-01T00:00:00.000Z".

Definition walletSigner (_ : string) : string := "0xwalletsig".

(** The delegation the documented process makes for the sample wallet. *)
Definition documentedDelegation : Delegation.DelegationInfo :=
  Delegation.WalletDelegation
    (DelegationProcess.delegate isoDate walletSigner Sample.deviceKey "device"
       Sample.wallet Sample.expiry "5d41402a").

(** The sample post signed under it. *)
Definition documentedPost : OpchanMessage :=
  {| unsigned := Sample.helloPost Sample.wallet;
     signature := Sample.plainSign (Sample.helloPost Sample.wallet) "device";
     browserPubKey := Sample.deviceKey;
     delegationProof := Delegation.delegationProofOf documentedDelegation |}.

(** A post that names another author, signed by the delegated device key
    and carrying the wallet's proof. *)
Definition guestPost : OpchanMessage :=
  {| unsigned := Sample.helloPost "mallory";
     signature := "sig/device";
     browserPubKey := Sample.deviceKey;
     delegationProof := Some Sample.walletProof |}.

(** The two cryptographic checks in the argument order of the
    verification process. *)
Definition verifyRaw (payload : UnsignedMessage) (sig key : string) : bool :=
  Sample.trustingEd25519 sig payload key.
Definition verifyWalletSignature (message sig address : string) : bool :=
  Sample.trustingWallet address message sig.

End Scenario.


(** * Properties *)

(** ** Text *)

Section TextFacts.

Lemma append_nil_l (t : string) : "" ++ t = t.
Proof. reflexivity. Qed.

Lemma append_cons (c : ascii) (s t : string) : String c s ++ t = String c (s ++ t).
Proof. reflexivity. Qed.

Lemma startsWith_app (sub rest : string) : Text.startsWith (sub ++ rest) sub = true.
Proof.
  induction sub as [|c sub IH]; [done|].
  rewrite append_cons. simpl. by rewrite Ascii.eqb_refl.
Qed.

Lemma startsWith_inv (s sub : string) :
  Text.startsWith s sub = true -> exists rest, s = sub ++ rest.
Proof.
  revert s. induction sub as [|c sub IH]; intros s Hs; simpl in Hs.
  - by exists s.
  - destruct s as [|d s]; [done|].
    destruct (Ascii.eqb c d) eqn:Hcd; [|done].
    apply Ascii.eqb_eq in Hcd as ->.
    destruct (IH _ Hs) as [rest ->]. by exists rest.
Qed.

(** [includes] is textual containment. *)
Lemma includes_spec (s sub : string) :
  Text.includes s sub = true <-> exists pre post, s = pre ++ sub ++ post.
Proof.
  split.
  - induction s as [|c s IH]; simpl; rewrite orb_true_iff.
    + intros [H|H]; [|done].
      apply startsWith_inv in H as [rest ->]. by exists "", rest.
    + intros [H|H].
      * apply startsWith_inv in H as [rest Hrest]. by exists "", rest.
      * destruct (IH H) as (pre & post & ->). by exists (String c pre), post.
  - intros (pre & post & ->).
    induction pre as [|c pre IH].
    + rewrite append_nil_l.
      assert (Text.startsWith (sub ++ post) sub = true) as Hs
        by apply startsWith_app.
      destruct (sub ++ post); simpl; by rewrite Hs.
    + rewrite append_cons. simpl. by rewrite IH, orb_true_r.
Qed.

Lemma hexRun_spec (n : nat) (s rest : string) :
  Text.hexRun n s = Some rest
  <-> exists group, s = group ++ rest /\ String.length group = n /\ Text.allHex group.
Proof.
  revert s. induction n as [|n IH]; intros s; simpl.
  - split.
    + intros [= ->]. by exists "".
    + intros (group & -> & Hlen & _). by destruct group.
  - destruct s as [|c s].
    + split; [done|]. intros (group & Hs & Hlen & _). by destruct group.
    + destruct (Text.isHexDigit c) eqn:Hc.
      * rewrite IH. split.
        -- intros (group & -> & Hlen & Hall).
           exists (String c group). simpl. auto.
        -- intros (group & Hs & Hlen & Hall).
           destruct group as [|d group]; [done|].
           rewrite append_cons in Hs. injection Hs as <- ->.
           exists group. simpl in *. split; [done|]. split; [lia|tauto].
      * split; [done|]. intros (group & Hs & Hlen & Hall).
        destruct group as [|d group]; [done|].
        rewrite append_cons in Hs. injection Hs as <- ->.
        simpl in Hall. destruct Hall as [Hd _]. congruence.
Qed.

Lemma dash_spec (s rest : string) :
  Text.dash s = Some rest <-> s = String "-" rest.
Proof.
  unfold Text.dash, Text.isDash. destruct s as [|c s]; [done|].
  destruct (Ascii.eqb_spec c "-"%char) as [->|Hne].
  - split; [by intros [= ->]|by intros [= ->]].
  - split; [done|]. intros [= -> ->]. done.
Qed.

(** The matcher decides the split: in particular [isSessionId s] holds
    exactly when [s] is five groups of 8, 4, 4, 4 and 12 hexadecimal digits
    joined by dashes. *)
Lemma matchAtoms_spec (p : list Text.Atom) (s : string) :
  Text.matchAtoms p s = true <-> Text.splitsInto p s.
Proof.
  revert s. induction p as [|[n|] p IH]; intros s; simpl.
  - by destruct s.
  - destruct (Text.hexRun n s) as [rest|] eqn:Hrun.
    + rewrite IH. apply hexRun_spec in Hrun as (group & -> & Hlen & Hall).
      split.
      * intros Hrest. by exists group, rest.
      * intros (group' & rest' & Hs & Hlen' & Hall' & Hrest).
        assert (Text.hexRun n (group ++ rest) = Some rest') as Hrun'.
        { rewrite Hs. apply hexRun_spec. by exists group'. }
        assert (Text.hexRun n (group ++ rest) = Some rest) as Hrun''.
        { apply hexRun_spec. by exists group. }
        congruence.
    + split; [done|]. intros (group & rest & Hs & Hlen & Hall & _).
      assert (Text.hexRun n s = Some rest) as Habs.
      { apply hexRun_spec. by exists group. }
      congruence.
  - destruct (Text.dash s) as [rest|] eqn:Hdash.
    + rewrite IH. apply dash_spec in Hdash as ->. split.
      * intros Hrest. by exists rest.
      * by intros (rest' & [= <-] & Hrest).
    + split; [done|]. intros (rest & Hs & _).
      apply dash_spec in Hs. congruence.
Qed.

End TextFacts.

(** ** Delegation *)

Section DelegationFacts.

Import Delegation.

Variable ed25519_verify : string -> UnsignedMessage -> string -> bool.
Variable verifyWalletSignature : string -> string -> string -> bool.
Variable ed25519_sign : UnsignedMessage -> string -> string.

Local Abbreviation verify := (verifyMessage ed25519_verify verifyWalletSignature).
Local Abbreviation sign := (signMessage ed25519_sign).

(** Reading of a wallet message's verdict: all five checks. *)
Lemma verify_wallet_unfold (m : OpchanMessage) (p : DelegationProof) (e : Env) :
  delegationProof m = Some p ->
  verify m e =
    ed25519_verify (signature m) (unsigned m) (browserPubKey m)
    && verifyWalletSignature (walletAddress p) (authMessage p) (walletSignature p)
    && Text.includes (authMessage p) (browserPubKey m)
    && Text.includes (authMessage p) (walletAddress p)
    && Text.includes (authMessage p) (Text.toString (expiryTimestamp p)).
Proof.
  intros Hp. unfold verifyMessage, bind, ret. rewrite Hp.
  destruct (ed25519_verify _ _ _); simpl; [|done].
  destruct (verifyWalletSignature _ _ _); simpl; [|done].
  destruct (Text.includes _ (browserPubKey m)); simpl; [|done].
  destruct (Text.includes _ (walletAddress p)); simpl; [|done].
  by destruct (Text.includes _ _).
Qed.

(** Reading of an anonymous message's verdict. *)
Lemma verify_anonymous_unfold (m : OpchanMessage) (e : Env) :
  delegationProof m = None ->
  verify m e =
    ed25519_verify (signature m) (unsigned m) (browserPubKey m)
    && Text.isSessionId (author (unsigned m)).
Proof.
  intros Hp. unfold verifyMessage, bind, ret. rewrite Hp.
  by destruct (ed25519_verify _ _ _).
Qed.



(** C5. The verdict of [verifyMessage] depends on the message alone: not on
    the wall clock, not on the locally stored delegation. In particular the
    proof's expiry is never compared with the current time. *)
Theorem verify_ignores_environment (m : OpchanMessage) (e1 e2 : Env) :
  verify m e1 = verify m e2.
Proof.
  unfold verifyMessage, bind, ret.
  destruct (negb _); [done|].
  destruct (delegationProof m) as [p|]; [|done].
  repeat (destruct (negb _); [done|]). done.
Qed.

(** By contrast signing does consult the clock: it refuses once the stored
    delegation has expired. *)
Lemma sign_refuses_expired (u : UnsignedMessage) (e : Env) (d : DelegationInfo) :
  stored e = Some d -> delegationExpiry d <= clock e -> sign u e = None.
Proof.
  intros Hst Hexp. unfold signMessage, bind, ret, loadDelegation, dateNow.
  rewrite Hst. by rewrite (proj2 (Z.leb_le _ _) Hexp).
Qed.

End DelegationFacts.

(** ** Replica *)

Section ReplicaFacts.

Import Replica.

Variable isValidMessage : OpchanMessage -> bool.

Local Abbreviation apply := (applyMessage isValidMessage).
Local Abbreviation applyAll := (Replica.applyAll isValidMessage).

Lemma store_seen (m : OpchanMessage) (r : State) : seen (store m r) = seen r.
Proof. unfold store. by destruct (body (unsigned m)). Qed.


Lemma apply_accepted (r r' : State) (m : OpchanMessage) :
  apply r m = (r', Accepted) ->
  isValidMessage m = true /\ (messageKey m ∉ seen r) /\ r' = commit m (store m r).
Proof.
  unfold applyMessage. destruct (isValidMessage m); simpl; [|done].
  destruct (decide _); [done|]. by intros [= <-].
Qed.


Lemma apply_seen (r : State) (m : OpchanMessage) :
  isValidMessage m = true -> messageKey m ∈ seen r -> apply r m = (r, Duplicate).
Proof.
  intros Hv Hk. unfold applyMessage. rewrite Hv. simpl.
  by destruct (decide _).
Qed.

(** The dedup set only grows. *)
Lemma apply_seen_mono (r : State) (m : OpchanMessage) :
  seen r ⊆ seen (fst (apply r m)).
Proof.
  unfold applyMessage. destruct (negb _); [done|].
  destruct (decide _); [done|]. simpl. rewrite store_seen. set_solver.
Qed.

Lemma applyAll_seen_mono (ms : list OpchanMessage) (r : State) :
  seen r ⊆ seen (applyAll r ms).
Proof.
  revert r. induction ms as [|m ms IH]; intros r; simpl; [done|].
  etrans; [apply (apply_seen_mono r m)|apply IH].
Qed.

(** C6. Once a message has been accepted, applying it again, immediately or
    after any further traffic, reports a duplicate and leaves the whole
    state (indexes, dedup set, sync stamp, durable log) as it was. *)
Theorem applyMessage_idempotent (r r1 : State) (m : OpchanMessage)
    (later : list OpchanMessage) :
  apply r m = (r1, Accepted) ->
  apply (applyAll r1 later) m = (applyAll r1 later, Duplicate).
Proof.
  intros (Hv & _ & ->)%apply_accepted.
  apply apply_seen; [done|].
  apply (applyAll_seen_mono later). simpl. set_solver.
Qed.

Lemma commit_votes (m : OpchanMessage) (r : State) : votes (commit m r) = votes r.
Proof. done. Qed.

Lemma commit_seen (m : OpchanMessage) (r : State) :
  seen (commit m r) = {[messageKey m]} ∪ seen r.
Proof. done. Qed.







End ReplicaFacts.

(** ** The properties on the sample data *)


(** Scenario "delegation binding": the post signed by another device key
    under the proof issued for [deviceKey] is rejected by every Ed25519 and
    wallet check. *)
Example delegation_binding_scenario
    (ed : string -> UnsignedMessage -> string -> bool)
    (wal : string -> string -> string -> bool) (e : Delegation.Env) :
  Delegation.verifyMessage ed wal Sample.hijackedPost e = false.
Proof.
  rewrite (verify_wallet_unfold ed wal Sample.hijackedPost Sample.walletProof e eq_refl).
  replace (Text.includes _ (browserPubKey Sample.hijackedPost)) with false
    by (vm_compute; reflexivity).
  by rewrite !andb_false_r.
Qed.



(** A proof that expired long ago (at [Sample.expiry]) does not stop the
    message from verifying, while signing with that delegation is refused. *)
Example expired_proof_still_verifies :
  let now := Sample.expiry + 86400000 in
  Delegation.verifyMessage Sample.trustingEd25519 Sample.trustingWallet
    Sample.walletPost (Sample.envAt now (Some Sample.walletDelegation)) = true
  /\ Delegation.signMessage Sample.plainSign (Sample.helloPost Sample.wallet)
       (Sample.envAt now (Some Sample.walletDelegation)) = None.
Proof. vm_compute. auto. Qed.


(** ** Relevance *)

Section RelevanceFacts.

Import Relevance.
Local Open Scope R_scope.

(** *** Bounds on the decay constant *)

Lemma exp_double (x : R) : exp (2 * x) = exp x * exp x.
Proof. replace (2 * x) with (x + x) by lra. apply exp_plus. Qed.

(** One squaring step of a lower bound. *)
Lemma exp_square_lower (x a b : R) :
  0 <= a -> a <= exp x -> b <= a * a -> b <= exp (2 * x).
Proof. intros Ha Hx Hb. rewrite exp_double. nra. Qed.

Ltac square_lower b :=
  match goal with
  | H : ?a <= exp ?x |- _ =>
      let H' := fresh "Hsq" in
      assert (b <= exp (2 * x)) as H'
        by (apply (exp_square_lower x a b); [lra|exact H|lra]);
      clear H
  end.

(** [exp(-0.693)] is a little more than one half: [0.693 < ln 2]. The bound
    [1 + x <= exp x] at [x = -0.693 / 4096], squared twelve times. *)
Lemma decay_week_lower : 0.50004 < exp (- 0.693).
Proof.
  assert (0.9998308105 <= exp (- 0.693 / 4096)) as H0.
  { pose proof (exp_ineq1_le (- 0.693 / 4096)). lra. }
  square_lower 0.9996616496. square_lower 0.9993234136.
  square_lower 0.9986472849. square_lower 0.9972963996.
  square_lower 0.9946001086. square_lower 0.9892293760.
  square_lower 0.9785747583. square_lower 0.9576085575.
  square_lower 0.9170141493. square_lower 0.8409149500.
  square_lower 0.7071379531. square_lower 0.5000440847.
  match goal with
  | H : _ <= exp ?x |- _ => replace x with (- 0.693) in H by lra
  end.
  lra.
Qed.

(** and less than 0.502: the same bound at [x = 0.693 / 64], squared six
    times, gives [1.99 < exp 0.693]. *)
Lemma decay_week_upper : exp (- 0.693) < 0.502.
Proof.
  assert (1.0108281250 <= exp (0.693 / 64)) as H0.
  { pose proof (exp_ineq1_le (0.693 / 64)). lra. }
  square_lower 1.0217734982. square_lower 1.0440210816.
  square_lower 1.0899800188. square_lower 1.1880564413.
  square_lower 1.4114781077. square_lower 1.9922704485.
  match goal with
  | H : _ <= exp ?x |- _ => replace x with 0.693 in H by lra
  end.
  assert (exp (- 0.693) * exp 0.693 = 1) as Hinv.
  { rewrite <- exp_plus. replace (- 0.693 + 0.693) with 0 by lra. apply exp_0. }
  pose proof (exp_pos (- 0.693)). nra.
Qed.

(** *** The score *)

Lemma isVerified_spec (verifications : gmap string bool) (a : string) :
  isVerified verifications a = bool_decide (verifications !! a = Some true).
Proof. unfold isVerified. by destruct (verifications !! a) as [[]|]. Qed.

Lemma size_list_to_set_remove_dups (l : list string) :
  size (list_to_set l : gset string) = length (remove_dups l).
Proof.
  rewrite <- (size_list_to_set (C := gset string) (remove_dups l))
    by apply NoDup_remove_dups.
  f_equal. apply set_eq. intros x.
  by rewrite !elem_of_list_to_set, elem_of_remove_dups.
Qed.

(** The accumulated points are the sum the specification writes. *)
Lemma engagementScore_spec (post : Post.t) (votes : list Vote.t)
    (comments : list Comment.t) (verifications : gmap string bool) :
  engagementScore post votes comments verifications
  = specPoints post votes comments verifications.
Proof.
  unfold engagementScore, specPoints, specUpvotes, specVerifiedUpvoters,
    specVerifiedCommenters, isUpvote.
  rewrite size_list_to_set_remove_dups, isVerified_spec.
  rewrite (List.filter_ext (isVerified verifications)
             (fun a => bool_decide (verifications !! a = Some true)))
    by apply isVerified_spec.
  rewrite (List.filter_ext
             (fun v => (Vote.value v =? 1)%Z && isVerified verifications (Vote.author v))
             (fun v => (Vote.value v =? 1)%Z
                       && bool_decide (verifications !! Vote.author v = Some true)))
    by (intros v; by rewrite isVerified_spec).
  destruct (bool_decide _); lia.
Qed.

Lemma engagementScore_base (post : Post.t) (votes : list Vote.t)
    (comments : list Comment.t) (verifications : gmap string bool) :
  (100 <= engagementScore post votes comments verifications)%Z.
Proof.
  rewrite engagementScore_spec. unfold specPoints.
  destruct (bool_decide _); lia.
Qed.

(** The score as one product. *)
Lemma calculateScore_product {M : Type} (now : Z) (post : Post.t)
    (votes : list Vote.t) (comments : list Comment.t)
    (verifications : gmap string bool) (moderations : gmap string M) :
  calculateScore now post votes comments verifications moderations
  = Rmax 0 (IZR (engagementScore post votes comments verifications)
            * timeDecay (daysOld now post) * specModFactor post moderations).
Proof.
  unfold calculateScore, specModFactor. f_equal.
  destruct (decide _) as [H|H].
  - by rewrite (bool_decide_eq_true_2 _ H).
  - rewrite (bool_decide_eq_false_2 _ H). lra.
Qed.

Lemma calculateScore_positive {M : Type} (now : Z) (post : Post.t)
    (votes : list Vote.t) (comments : list Comment.t)
    (verifications : gmap string bool) (moderations : gmap string M) :
  calculateScore now post votes comments verifications moderations
  = IZR (engagementScore post votes comments verifications)
    * timeDecay (daysOld now post) * specModFactor post moderations
  /\ 0 < calculateScore now post votes comments verifications moderations.
Proof.
  rewrite calculateScore_product.
  pose proof (engagementScore_base post votes comments verifications) as Hbase.
  apply IZR_le in Hbase.
  pose proof (exp_pos (-0.693 * daysOld now post / 7)) as Hdecay.
  fold (timeDecay (daysOld now post)) in Hdecay.
  assert (0 < specModFactor post moderations) as Hmod.
  { unfold specModFactor. destruct (bool_decide _); lra. }
  assert (0 < IZR (engagementScore post votes comments verifications)
              * timeDecay (daysOld now post) * specModFactor post moderations)
    as Hpos.
  { apply Rmult_lt_0_compat; [apply Rmult_lt_0_compat|]; lra. }
  rewrite Rmax_right by lra. done.
Qed.

Lemma daysOld_at_post (post : Post.t) : daysOld (Post.timestamp post) post = 0.
Proof.
  unfold daysOld. rewrite Z.sub_diag. unfold Rdiv. apply Rmult_0_l.
Qed.

Lemma daysOld_after_week (post : Post.t) :
  daysOld (Post.timestamp post + 7 * msPerDay) post = 7.
Proof.
  unfold daysOld.
  replace (Post.timestamp post + 7 * msPerDay - Post.timestamp post)%Z
    with (7 * msPerDay)%Z by lia.
  rewrite mult_IZR. unfold Rdiv. rewrite Rmult_assoc, Rinv_r; [lra|].
  apply not_0_IZR. unfold msPerDay. lia.
Qed.

Lemma timeDecay_now : timeDecay 0 = 1.
Proof.
  unfold timeDecay. replace (-0.693 * 0 / 7) with 0 by lra. apply exp_0.
Qed.

Lemma timeDecay_week : timeDecay 7 = exp (- 0.693).
Proof. unfold timeDecay. f_equal. lra. Qed.


Lemma timeDecay_rate (d : R) : timeDecay d = exp (Ropp 0.693 * d / 7).
Proof. unfold timeDecay. f_equal. lra. Qed.


(** C2 (amended). The score is
    [max(0, (100 + 10 #upvotes + 3 #comments + 20 [author verified]
             + 5 #verified upvotes + 10 #distinct verified commenters)
            * exp(-0.693 * daysOld / 7) * (0.5 if moderated else 1))],
    with the decay constant [0.693] in place of [ln 2]. For a post with ten
    upvotes of unverified users, no comment, a verified author and no
    moderation record, it is exactly 220 at the post's own timestamp, and
    seven days later it is [220 * exp(-0.693)], a value between 110 and 111. *)
Theorem relevance_score_formula :
  (forall (M : Type) (now : Z) (post : Post.t) (votes : list Vote.t)
          (comments : list Comment.t) (verifications : gmap string bool)
          (moderations : gmap string M),
     calculateScore now post votes comments verifications moderations
     = specScore 0.693 now post votes comments verifications moderations)
  /\ (forall (M : Type) (post : Post.t) (votes : list Vote.t)
             (verifications : gmap string bool) (moderations : gmap string M),
        specUpvotes votes = 10%nat ->
        specVerifiedUpvoters votes verifications = 0%nat ->
        verifications !! Post.author post = Some true ->
        moderations !! Post.id post = None ->
        calculateScore (Post.timestamp post) post votes [] verifications moderations
        = 220
        /\ calculateScore (Post.timestamp post + 7 * msPerDay) post votes []
             verifications moderations = 220 * exp (- 0.693)
        /\ 110 < 220 * exp (- 0.693) < 111).
Proof.
  split.
  - intros M now post votes comments verifications moderations.
    rewrite calculateScore_product, engagementScore_spec.
    unfold specScore. by rewrite timeDecay_rate.
  - intros M post votes verifications moderations Hup Hvup Hauthor Hmod.
    assert (engagementScore post votes [] verifications = 220%Z) as Hpoints.
    { rewrite engagementScore_spec. unfold specPoints, specVerifiedCommenters.
      rewrite Hup, Hvup, (bool_decide_eq_true_2 _ Hauthor). done. }
    assert (specModFactor post moderations = 1) as Hfactor.
    { unfold specModFactor. rewrite Hmod.
      rewrite bool_decide_eq_false_2; [done|]. by intros [? ?]. }
    split; [|split].
    + destruct (calculateScore_positive (Post.timestamp post) post votes []
                  verifications moderations) as [-> _].
      rewrite Hpoints, Hfactor, daysOld_at_post, timeDecay_now. lra.
    + destruct (calculateScore_positive (Post.timestamp post + 7 * msPerDay)
                  post votes [] verifications moderations) as [-> _].
      rewrite Hpoints, Hfactor, daysOld_after_week, timeDecay_week. lra.
    + pose proof decay_week_lower. pose proof decay_week_upper. lra.
Qed.


End RelevanceFacts.

Section RelevanceExamples.

Import Relevance.
Local Open Scope R_scope.

Lemma rankedPost_points :
  engagementScore Sample.rankedPost Sample.tenUpvotes [] Sample.verifications = 220%Z.
Proof. vm_compute. reflexivity. Qed.

Lemma rankedPost_unmoderated :
  specModFactor Sample.rankedPost Sample.noModerations = 1.
Proof.
  unfold specModFactor.
  replace (bool_decide _) with false by (vm_compute; reflexivity). done.
Qed.

Lemma rankedPost_week_old :
  calculateScore (Post.timestamp Sample.rankedPost + Sample.sevenDaysMs)
    Sample.rankedPost Sample.tenUpvotes [] Sample.verifications Sample.noModerations
  = 220 * exp (- 0.693).
Proof.
  destruct (calculateScore_positive
              (Post.timestamp Sample.rankedPost + Sample.sevenDaysMs)
              Sample.rankedPost Sample.tenUpvotes [] Sample.verifications
              Sample.noModerations) as [-> _].
  unfold Sample.sevenDaysMs.
  rewrite rankedPost_points, rankedPost_unmoderated, daysOld_after_week,
    timeDecay_week. lra.
Qed.

(** Scenario "relevance decay", seven days on: the implementation yields a
    little more than 110, the formula with [ln 2] yields exactly 110; neither
    is 60. *)
Lemma relevance_week_old_is_not_60 :
  calculateScore (Post.timestamp Sample.rankedPost + Sample.sevenDaysMs)
    Sample.rankedPost Sample.tenUpvotes [] Sample.verifications Sample.noModerations
  <> 60
  /\ 110 < calculateScore (Post.timestamp Sample.rankedPost + Sample.sevenDaysMs)
             Sample.rankedPost Sample.tenUpvotes [] Sample.verifications
             Sample.noModerations
  /\ specScore (ln 2) (Post.timestamp Sample.rankedPost + Sample.sevenDaysMs)
       Sample.rankedPost Sample.tenUpvotes [] Sample.verifications
       Sample.noModerations = 110.
Proof.
  rewrite rankedPost_week_old. pose proof decay_week_lower as Hlow.
  split; [lra|]. split; [lra|].
  unfold specScore, Sample.sevenDaysMs.
  rewrite <- engagementScore_spec, rankedPost_points, rankedPost_unmoderated,
    daysOld_after_week.
  replace (- ln 2 * 7 / 7) with (- ln 2) by lra.
  rewrite exp_Ropp, exp_ln by lra.
  rewrite Rmax_right; lra.
Qed.

Lemma relevance_score_formula_witness :
  calculateScore (Post.timestamp Sample.rankedPost) Sample.rankedPost
    Sample.tenUpvotes [] Sample.verifications Sample.noModerations = 220
  /\ calculateScore (Post.timestamp Sample.rankedPost + 7 * msPerDay)
       Sample.rankedPost Sample.tenUpvotes [] Sample.verifications
       Sample.noModerations = 220 * exp (- 0.693)
  /\ 110 < 220 * exp (- 0.693) < 111.
Proof.
  apply (proj2 relevance_score_formula OpchanMessage Sample.rankedPost
           Sample.tenUpvotes Sample.verifications Sample.noModerations);
    vm_compute; reflexivity.
Defined.


End RelevanceExamples.

(** ** Derived views *)

Section CommentsByPostFacts.

Import Content.
Local Open Scope list_scope.

(** *** Sorting *)






(** *** Grouping *)

Lemma commentsOn_app (k : string) (l1 l2 : list Comment.t) :
  commentsOn k (l1 ++ l2) = commentsOn k l1 ++ commentsOn k l2.
Proof. apply List.filter_app. Qed.




End CommentsByPostFacts.

Section CellsWithStatsFacts.

Import Content.
Local Open Scope list_scope.

(** *** One entry, folded over the items counted for it *)




(** *** The two loops, seen from one cell id *)



(** *** [find] against "names a post in that cell" *)







End CellsWithStatsFacts.

Section CellsWithStatsExamples.

Import Content.

Example forum_stats :
  List.map (fun c => (Cell.id (cell c), cell_postCount c, cell_activeUsers c,
                      cell_recentActivity c))
           (cellsWithStats Sample.forumNow Sample.forumCells Sample.forumPosts
              Sample.forumComments)
  = [("c1", 2, 3, 3)%nat; ("c2", 0, 0, 0)%nat].
Proof. vm_compute. reflexivity. Qed.


Example forum_comments_of_p1 :
  List.map Comment.id
    (default [] (commentsByPost Sample.forumComments !! "p1"))
  = ["k4"; "k1"].
Proof. vm_compute. reflexivity. Qed.

End CellsWithStatsExamples.

(** ** Following *)

Section FollowingFacts.

Import Following.




Example toggle_twice :
  let db1 := fst (toggleFollow 1000 "alice" "bob" ∅) in
  let db2 := fst (toggleFollow 2000 "alice" "bob" db1) in
  snd (toggleFollow 1000 "alice" "bob" ∅) = true
  /\ isFollowing db1 "alice" "bob" = true
  /\ snd (toggleFollow 2000 "alice" "bob" db1) = false
  /\ isFollowing db2 "alice" "bob" = false.
Proof. vm_compute. auto. Qed.

End FollowingFacts.

(** ** The replica on the sample data *)

Section ReplicaExamples.

Import Replica.

Lemma applyMessage_idempotent_witness :
  let post := Sample.anonymousPost Sample.sessionId in
  let r1 := fst (applyMessage Sample.validator empty post) in
  let r2 := applyAll Sample.validator r1 [Sample.upvoteA; Sample.downvoteLater] in
  applyMessage Sample.validator empty post = (r1, Accepted)
  /\ applyMessage Sample.validator r2 post = (r2, Duplicate).
Proof.
  split; [reflexivity|].
  apply (applyMessage_idempotent Sample.validator empty).
  reflexivity.
Defined.


End ReplicaExamples.

(** * Further properties of the code *)

(** ** Separators and composite keys *)

Section KeyFacts.

Local Open Scope string_scope.

Lemma lacks_app (c : ascii) (s t : string) :
  Str.lacks c (s ++ t) <-> Str.lacks c s /\ Str.lacks c t.
Proof.
  induction s as [|d s IH].
  - rewrite append_nil_l. simpl. tauto.
  - rewrite append_cons. simpl. rewrite IH. tauto.
Qed.

Lemma lacks_separator (c : ascii) (s t : string) : ~ Str.lacks c (s ++ String c t).
Proof.
  rewrite lacks_app. simpl. intros (_ & Hc & _). done.
Qed.

(** Splitting at the first separator. *)
Lemma split_first (sep : ascii) (a b : string) :
  Str.lacks sep a -> Str.split sep (a ++ String sep b) = a :: Str.split sep b.
Proof.
  induction a as [|c a IH]; intros Hlacks.
  - rewrite append_nil_l. simpl. by rewrite Ascii.eqb_refl.
  - rewrite append_cons. simpl. destruct Hlacks as [Hc Ha].
    rewrite (proj2 (Ascii.eqb_neq _ _) Hc), (IH Ha). done.
Qed.

Lemma split_none (sep : ascii) (a : string) :
  Str.lacks sep a -> Str.split sep a = [a].
Proof.
  induction a as [|c a IH]; intros Hlacks; simpl; [done|].
  destruct Hlacks as [Hc Ha].
  by rewrite (proj2 (Ascii.eqb_neq _ _) Hc), (IH Ha).
Qed.

(** A key [a:b] determines [a] and [b] when the left parts hold no
    separator. *)
Lemma key_split_left (c : ascii) (a a' b b' : string) :
  Str.lacks c a -> Str.lacks c a' ->
  a ++ String c b = a' ++ String c b' -> a = a' /\ b = b'.
Proof.
  revert a'. induction a as [|d a IH]; intros [|d' a'] Ha Ha'.
  - rewrite !append_nil_l. by intros [= ->].
  - rewrite append_nil_l, append_cons. intros [= <- ->].
    simpl in Ha'. by destruct Ha' as [? _].
  - rewrite append_nil_l, append_cons. intros [= -> <-].
    simpl in Ha. by destruct Ha as [? _].
  - rewrite !append_cons. intros [= -> Heq].
    destruct Ha as [_ Ha], Ha' as [_ Ha'].
    destruct (IH a' Ha Ha' Heq) as [-> ->]. done.
Qed.

(** and when the right parts hold none. *)
Lemma key_split_right (c : ascii) (a a' b b' : string) :
  Str.lacks c b -> Str.lacks c b' ->
  a ++ String c b = a' ++ String c b' -> a = a' /\ b = b'.
Proof.
  revert a'. induction a as [|d a IH]; intros [|d' a'] Hb Hb'.
  - rewrite !append_nil_l. by intros [= ->].
  - rewrite append_nil_l, append_cons. intros [= <- ->].
    by apply lacks_separator in Hb.
  - rewrite append_nil_l, append_cons. intros [= -> <-].
    by apply lacks_separator in Hb'.
  - rewrite !append_cons. intros [= -> Heq].
    destruct (IH a' Hb Hb' Heq) as [-> ->]. done.
Qed.

(** *** Decimal renderings hold digits, and a minus sign at most *)

Lemma pretty_N_char_digit (x : N) : DelegationProcess.isDigit (pretty_N_char x) = true.
Proof. unfold pretty_N_char. by repeat case_match. Qed.

Lemma pretty_N_go_digits (x : N) (s : string) :
  DelegationProcess.allDigits s -> DelegationProcess.allDigits (pretty_N_go x s).
Proof.
  revert s. induction (N.lt_wf_0 x) as [x _ IH]; intros s Hs.
  destruct (decide (x = 0)%N) as [->|Hx]; [by rewrite pretty_N_go_0|].
  rewrite pretty_N_go_step by lia. apply IH.
  - apply N.div_lt; lia.
  - simpl. split; [apply pretty_N_char_digit|done].
Qed.

Lemma pretty_N_digits (x : N) : DelegationProcess.allDigits (pretty x).
Proof.
  unfold pretty, pretty_N. case_decide; [by simpl|].
  by apply pretty_N_go_digits.
Qed.

(** The decimal rendering of a timestamp that is not negative is made of
    digits only. *)
Lemma toString_digits (z : Z) : 0 <= z -> DelegationProcess.allDigits (Text.toString z).
Proof.
  intros Hz. unfold Text.toString, pretty, pretty_Z.
  destruct z as [|p|p]; [by simpl|apply pretty_N_digits|lia].
Qed.

Lemma allDigits_lacks (c : ascii) (s : string) :
  DelegationProcess.isDigit c = false -> DelegationProcess.allDigits s -> Str.lacks c s.
Proof.
  intros Hc. induction s as [|d s IH]; simpl; [done|].
  intros [Hd Hs]. split; [congruence|auto].
Qed.

Lemma toString_lacks_colon (z : Z) : Str.lacks ":" (Text.toString z).
Proof.
  unfold Text.toString, pretty, pretty_Z.
  destruct z as [|p|p].
  - simpl. split; [discriminate|done].
  - apply allDigits_lacks; [done|apply pretty_N_digits].
  - change ("-" +:+ pretty p) with (String "-" (pretty p)).
    simpl. split; [discriminate|].
    apply allDigits_lacks; [done|apply pretty_N_digits].
Qed.

Lemma typeName_lacks_colon (t : MessageType) : Str.lacks ":" (typeName t).
Proof. destruct t; simpl; repeat split; discriminate. Qed.

Lemma typeName_inj (t t' : MessageType) : typeName t = typeName t' -> t = t'.
Proof. by destruct t, t'. Qed.

(** X1. The dedup key [type:id:timestamp] of two messages is the same string
    exactly when they agree on type, id and timestamp, whatever characters
    the ids hold. *)
Theorem messageKey_collision_free (m1 m2 : OpchanMessage) :
  Dedup.messageKey m1 = Dedup.messageKey m2
  <-> msgType m1 = msgType m2
      /\ id (unsigned m1) = id (unsigned m2)
      /\ timestamp (unsigned m1) = timestamp (unsigned m2).
Proof.
  unfold Dedup.messageKey. split.
  - intros Hkey.
    change (?a ++ ":" ++ ?b) with (a ++ String ":" b) in Hkey.
    apply key_split_left in Hkey as [Htype Hrest];
      [|apply typeName_lacks_colon..].
    change (?a ++ ":" ++ ?b) with (a ++ String ":" b) in Hrest.
    apply key_split_right in Hrest as [Hid Hts];
      [|apply toString_lacks_colon..].
    split; [by apply typeName_inj|]. split; [done|].
    by apply (inj pretty).
  - by intros (-> & -> & ->).
Qed.

(** X2. The composite id [userId:followedAddress] determines both parts when
    the user ids hold no colon (wallet addresses and session ids hold
    none). *)
Theorem followingId_injective (u u' a a' : string) :
  Str.lacks ":" u -> Str.lacks ":" u' ->
  Following.followingId u a = Following.followingId u' a' ->
  u = u' /\ a = a'.
Proof.
  unfold Following.followingId. intros Hu Hu' Hid.
  change (?x ++ ":" ++ ?y) with (x ++ String ":" y) in Hid.
  by apply (key_split_left ":" u u' a a').
Qed.

(** Without that proviso two different pairs can share an id. *)
Example followingId_collision :
  Following.followingId "a:b" "c" = Following.followingId "a" "b:c".
Proof. reflexivity. Qed.

(** X3. [removeBookmark] recovers the type and the target id from a bookmark
    id [type:targetId] whenever the target id holds no colon. *)
Theorem parseBookmarkId_roundtrip (t : ContentHook.BookmarkType) (targetId : string) :
  Str.lacks ":" targetId ->
  ContentHook.parseBookmarkId (ContentHook.bookmarkId t targetId)
  = (t, Some targetId).
Proof.
  intros Htarget. unfold ContentHook.parseBookmarkId, ContentHook.bookmarkId.
  change (?x ++ ":" ++ ?y) with (x ++ String ":" y).
  rewrite split_first, (split_none _ _ Htarget) by (destruct t; simpl; repeat split; discriminate).
  simpl. by destruct t.
Qed.

(** With a colon in the target id only the part before it comes back. *)
Example parseBookmarkId_truncates :
  ContentHook.parseBookmarkId (ContentHook.bookmarkId ContentHook.BookmarkPost "a:b")
  = (ContentHook.BookmarkPost, Some "a").
Proof. reflexivity. Qed.

End KeyFacts.

(** ** Display names *)

Section DisplayFacts.

Import Identity.
Local Open Scope string_scope.

Lemma length_append (s t : string) :
  String.length (s ++ t) = (String.length s + String.length t)%nat.
Proof.
  induction s as [|c s IH]; [done|].
  rewrite append_cons. simpl. by rewrite IH.
Qed.

Lemma substring_prefix (a b : string) :
  String.substring 0 (String.length a) (a ++ b) = a.
Proof.
  induction a as [|c a IH].
  - rewrite append_nil_l. by destruct b.
  - rewrite append_cons. simpl. by rewrite IH.
Qed.

Lemma substring_skip (a b : string) (m : nat) :
  String.substring (String.length a) m (a ++ b) = String.substring 0 m b.
Proof.
  induction a as [|c a IH]; [done|].
  rewrite append_cons. simpl. apply IH.
Qed.

Lemma substring_all (s : string) : String.substring 0 (String.length s) s = s.
Proof. induction s as [|c s IH]; simpl; [done|by rewrite IH]. Qed.

Lemma append_assoc (s t u : string) : (s ++ t) ++ u = s ++ t ++ u.
Proof.
  induction s as [|c s IH]; [done|].
  rewrite !append_cons. by rewrite IH.
Qed.

Lemma clampIndex_nonneg (len : nat) (i : Z) :
  0 <= i -> Str.clampIndex len i = Nat.min (Z.to_nat i) len.
Proof.
  intros Hi. unfold Str.clampIndex.
  destruct (Z.ltb_spec i 0); lia.
Qed.

Lemma clampIndex_negative (len : nat) (i : Z) :
  i < 0 -> Str.clampIndex len i = (len - Z.to_nat (- i))%nat.
Proof.
  intros Hi. unfold Str.clampIndex.
  destruct (Z.ltb_spec i 0); lia.
Qed.

(** X4. An address of at least ten characters is shortened to its first six
    and its last four characters around three dots, as in [0x742d...beb1]. *)
Theorem shortened_shape (first middle last : string) :
  String.length first = 6%nat -> String.length last = 4%nat ->
  shortened (first ++ middle ++ last) = first ++ "..." ++ last.
Proof.
  intros Hfirst Hlast. unfold shortened, Str.slice.
  rewrite !clampIndex_nonneg, clampIndex_negative by lia.
  rewrite !length_append, Hfirst, Hlast.
  replace (Nat.min (Z.to_nat 0) (6 + (String.length middle + 4))) with 0%nat by lia.
  replace (Nat.min (Z.to_nat 6) (6 + (String.length middle + 4)) - 0)%nat
    with (String.length first) by lia.
  replace (6 + (String.length middle + 4) - Z.to_nat (- -4))%nat
    with (String.length (first ++ middle)) by (rewrite length_append; lia).
  replace (6 + (String.length middle + 4) - String.length (first ++ middle))%nat
    with (String.length last) by (rewrite length_append; lia).
  rewrite substring_prefix.
  rewrite <- (append_assoc first middle last), substring_skip, substring_all.
  done.
Qed.

(** Shorter inputs overlap or repeat. *)
Example shortened_short : shortened "abcdefgh" = "abcdef...efgh" /\ shortened "ab" = "ab...ab".
Proof. split; reflexivity. Qed.

Lemma append_nonempty_r (s : string) (c : ascii) (t : string) : s ++ String c t <> "".
Proof. by destruct s. Qed.

Lemma truthy_Some (o : option string) :
  Str.truthy o = true -> exists s, o = Some s /\ s <> "".
Proof.
  destruct o as [s|]; simpl; [|done].
  intros H. exists s. split; [done|].
  intros ->. done.
Qed.

(** X5. The display name is never the empty string: an empty call sign or ENS
    name is passed over, and the shortened address always holds the dots.
    The same goes for the name FollowingCard shows. *)
Theorem displayName_nonempty :
  (forall identity : UserIdentity, getDisplayName identity <> "")
  /\ (forall (displayName : option string) (followedAddress : string),
        cardDisplayName displayName followedAddress <> "").
Proof.
  split.
  - intros identity. unfold getDisplayName.
    destruct (Str.truthy (callSign identity)) eqn:Hcall; simpl.
    + apply truthy_Some in Hcall as (s & Hs & Hne).
      destruct (isCallSign _).
      * by rewrite Hs.
      * destruct (Str.truthy (ensName identity)) eqn:Hens.
        -- apply truthy_Some in Hens as (e & -> & He). done.
        -- apply append_nonempty_r.
    + destruct (Str.truthy (ensName identity)) eqn:Hens.
      * apply truthy_Some in Hens as (e & -> & He). done.
      * apply append_nonempty_r.
  - intros displayName followedAddress. unfold cardDisplayName.
    destruct (Str.truthy displayName) eqn:Hname.
    + apply truthy_Some in Hname as (s & -> & Hs). done.
    + apply append_nonempty_r.
Qed.

End DisplayFacts.

(** ** The derived views once more *)

Section DerivedViewFacts.

Import Content ContentHook.
Local Open Scope list_scope.



(** *** An insertion behind everything that is not later *)





(** *** Cell statistics without any assumption on the ids *)





Lemma findPost_namesPost (posts : list Post.t) (c : Comment.t) :
  namesPost posts c = false -> findPost posts (Comment.postId c) = None.
Proof.
  unfold namesPost, findPost. induction posts as [|p posts IH]; simpl; [done|].
  destruct (String.eqb (Post.id p) (Comment.postId c)); simpl; [done|exact IH].
Qed.

(** X10. Comments whose [postId] names no post are skipped: the cell
    statistics are those of the remaining comments. *)
Theorem cellsWithStats_skips_orphans (now : Z) (cells : list Cell.t)
    (posts : list Post.t) (comments : list Comment.t) :
  cellsWithStats now cells posts comments
  = cellsWithStats now cells posts (List.filter (namesPost posts) comments).
Proof.
  unfold cellsWithStats. apply List.map_ext. intros cell.
  set (byCell0 := foldl (countPost now) ∅ posts).
  assert (foldl (countComment now posts) byCell0 comments
          = foldl (countComment now posts) byCell0
                  (List.filter (namesPost posts) comments)) as ->; [|done].
  generalize byCell0. clear byCell0.
  induction comments as [|c comments IH]; intros byCell; simpl; [done|].
  destruct (namesPost posts c) eqn:Hnames; simpl.
  - apply IH.
  - unfold countComment at 2. rewrite (findPost_namesPost posts c Hnames).
    apply IH.
Qed.

End DerivedViewFacts.

(** ** Following: the service *)

Section FollowingServiceFacts.

Import Following FollowingService.
Local Open Scope list_scope.

Lemma isFollowing_false (db : Store) (u a : string) :
  isFollowing db u a = false <-> db !! followingId u a = None.
Proof.
  unfold isFollowing, db_isFollowing. rewrite bool_decide_eq_false.
  rewrite <- eq_None_not_Some. done.
Qed.

Lemma isFollowing_true (db : Store) (u a : string) :
  isFollowing db u a = true <-> is_Some (db !! followingId u a).
Proof. unfold isFollowing, db_isFollowing. apply bool_decide_eq_true. Qed.

Lemma toggleFollow_unfold (now : Z) (u a : string) (db : Store) :
  toggleFollow now u a db
  = if isFollowing db u a
    then (delete (followingId u a) db, false)
    else (<[followingId u a := recordOf now u a]> db, true).
Proof. unfold toggleFollow, isFollowing. by destruct (db_isFollowing db u a). Qed.

(** X11. For a pair that is not followed, [unfollowUser] changes nothing, and
    [followUser] followed by [unfollowUser] gives the store back as it
    was. *)
Theorem follow_unfollow_roundtrip (now : Z) (u a : string) (db : Store) :
  isFollowing db u a = false ->
  unfollowUser u a db = db
  /\ unfollowUser u a (fst (followUser now u a db)) = db.
Proof.
  intros Hnot%isFollowing_false.
  unfold unfollowUser, followUser, db_removeFollowing, db_addFollowing. simpl.
  split.
  - by apply delete_id.
  - by apply delete_insert_id.
Qed.

(** X12. Toggling twice brings the following state back. If the pair was not
    followed the store is as before; if it was followed, its record has
    been filed anew, with the time of the second call. *)
Theorem toggleFollow_twice (now1 now2 : Z) (u a : string) (db : Store) :
  let db1 := fst (toggleFollow now1 u a db) in
  let db2 := fst (toggleFollow now2 u a db1) in
  isFollowing db2 u a = isFollowing db u a
  /\ db2 = (if isFollowing db u a
           then <[followingId u a := recordOf now2 u a]> db
           else db).
Proof.
  simpl. rewrite !toggleFollow_unfold.
  destruct (isFollowing db u a) eqn:Hbefore; simpl.
  - assert (isFollowing (delete (followingId u a) db) u a = false) as ->.
    { apply isFollowing_false, lookup_delete_eq. }
    simpl. rewrite insert_delete_eq. split; [|done].
    apply isFollowing_true. rewrite lookup_insert_eq. by eexists.
  - assert (isFollowing (<[followingId u a := recordOf now1 u a]> db) u a = true)
      as ->.
    { apply isFollowing_true. rewrite lookup_insert_eq. by eexists. }
    simpl. apply isFollowing_false in Hbefore.
    rewrite delete_insert_id by done. split; [|done].
    by apply isFollowing_false.
Qed.

(** X13. Toggling one pair leaves the following state of every other pair
    alone, user ids holding no colon. *)
Theorem toggleFollow_other_pairs (now : Z) (u a u' a' : string) (db : Store) :
  Str.lacks ":" u -> Str.lacks ":" u' -> (u', a') <> (u, a) ->
  isFollowing (fst (toggleFollow now u a db)) u' a' = isFollowing db u' a'.
Proof.
  intros Hu Hu' Hne.
  assert (followingId u a <> followingId u' a') as Hid.
  { intros Heq. unfold followingId in Heq.
    change (?x ++ ":" ++ ?y)%string with (x ++ String ":" y)%string in Heq.
    apply key_split_left in Heq as [-> ->]; done. }
  rewrite toggleFollow_unfold.
  destruct (isFollowing db u a); simpl; unfold isFollowing, db_isFollowing.
  - by rewrite lookup_delete_ne.
  - by rewrite lookup_insert_ne.
Qed.

(** *** The store stays well filed *)

Lemma wellFiled_insert (now : Z) (u a : string) (db : Store) :
  Str.lacks ":" u -> wellFiled db ->
  wellFiled (<[followingId u a := recordOf now u a]> db).
Proof.
  intros Hu Hdb k f. rewrite lookup_insert.
  destruct (decide (followingId u a = k)) as [<-|Hne].
  - intros [= <-]. done.
  - apply Hdb.
Qed.

Lemma wellFiled_delete (k : string) (db : Store) :
  wellFiled db -> wellFiled (delete k db).
Proof.
  intros Hdb j f. rewrite lookup_delete.
  destruct (decide (k = j)); [done|]. apply Hdb.
Qed.

Lemma wellFiled_clear (l : list t) (db : Store) :
  wellFiled db -> wellFiled (foldl (fun db f => db_removeFollowing (id f) db) db l).
Proof.
  revert db. induction l as [|f l IH]; intros db Hdb; simpl; [done|].
  apply IH. by apply wellFiled_delete.
Qed.

(** X14. Starting from the empty store, the service keeps every record filed
    under the id made of its own user id and followed address: [followUser],
    [unfollowUser], [toggleFollow] and [clearUserFollowing] all preserve
    this, for user ids without a colon. *)
Theorem service_keeps_wellFiled (now : Z) (u a : string) (db : Store) :
  wellFiled ∅
  /\ (Str.lacks ":" u -> wellFiled db ->
      wellFiled (fst (followUser now u a db))
      /\ wellFiled (unfollowUser u a db)
      /\ wellFiled (fst (toggleFollow now u a db))
      /\ wellFiled (clearUserFollowing db u)).
Proof.
  split.
  - intros k f Hk. by rewrite lookup_empty in Hk.
  - intros Hu Hdb. split; [by apply wellFiled_insert|].
    split; [by apply wellFiled_delete|]. split.
    + rewrite toggleFollow_unfold. destruct (isFollowing db u a); simpl.
      * by apply wellFiled_delete.
      * by apply wellFiled_insert.
    + by apply wellFiled_clear.
Qed.

Lemma elem_of_getAllFollowing (db : Store) (f : t) :
  In f (db_getAllFollowing db) <-> exists k, db !! k = Some f.
Proof.
  unfold db_getAllFollowing. rewrite <- list_elem_of_In, list_elem_of_fmap.
  split.
  - intros ([k f'] & -> & Hin). exists k. by apply elem_of_map_to_list.
  - intros [k Hk]. exists (k, f). split; [done|]. by apply elem_of_map_to_list.
Qed.

Lemma elem_of_getUserFollowing (db : Store) (u : string) (f : t) :
  In f (db_getUserFollowing db u) <-> (exists k, db !! k = Some f) /\ userId f = u.
Proof.
  unfold db_getUserFollowing. rewrite List.filter_In, elem_of_getAllFollowing.
  by rewrite String.eqb_eq.
Qed.

(** X15. In a well-filed store the synchronous check and the list agree: a
    user is following an address exactly when [getFollowing] lists it. *)
Theorem isFollowing_iff_listed (db : Store) (u a : string) :
  wellFiled db -> Str.lacks ":" u ->
  (isFollowing db u a = true <-> In a (getFollowing db u)).
Proof.
  intros Hdb Hu. unfold getFollowing. rewrite isFollowing_true, List.in_map_iff.
  split.
  - intros [f Hf]. exists f.
    destruct (Hdb _ _ Hf) as (Hk & Hid & Hlacks).
    rewrite Hid in Hk. unfold followingId in Hk.
    change (?x ++ ":" ++ ?y)%string with (x ++ String ":" y)%string in Hk.
    apply key_split_left in Hk as [Hu' Ha']; [|done..].
    split; [done|]. apply elem_of_getUserFollowing. split; [by exists (followingId u a)|done].
  - intros (f & <- & Hf). apply elem_of_getUserFollowing in Hf as [[k Hk] <-].
    destruct (Hdb _ _ Hk) as (-> & Hid & _).
    exists f. by rewrite <- Hid.
Qed.

Lemma lookup_clear (l : list t) (db : Store) (k : string) :
  foldl (fun db f => db_removeFollowing (id f) db) db l !! k
  = if bool_decide (k ∈ List.map id l) then None else db !! k.
Proof.
  revert db. induction l as [|f l IH]; intros db.
  - rewrite bool_decide_eq_false_2; [done|apply not_elem_of_nil].
  - simpl foldl. rewrite IH. unfold db_removeFollowing. simpl List.map.
    destruct (bool_decide_reflect (k ∈ List.map id l)) as [Hin|Hnin].
    + rewrite bool_decide_eq_true_2; [done|by apply list_elem_of_further].
    + destruct (decide (id f = k)) as [<-|Hne].
      * rewrite lookup_delete_eq.
        rewrite bool_decide_eq_true_2; [done|apply list_elem_of_here].
      * rewrite lookup_delete_ne by done.
        rewrite bool_decide_eq_false_2; [done|].
        intros [?|?]%elem_of_cons; done.
Qed.

(** X16. In a well-filed store [clearUserFollowing] removes exactly the
    records of that user: afterwards the user follows nobody, and every
    record of another user is still there. *)
Theorem clearUserFollowing_clears (db : Store) (u : string) :
  wellFiled db ->
  getFollowing (clearUserFollowing db u) u = []
  /\ (forall k f, db !! k = Some f -> userId f <> u ->
                  clearUserFollowing db u !! k = Some f)
  /\ (forall k f, clearUserFollowing db u !! k = Some f -> db !! k = Some f).
Proof.
  intros Hdb.
  assert (forall k f, clearUserFollowing db u !! k = Some f ->
                      db !! k = Some f /\ userId f <> u) as Hleft.
  { intros k f. unfold clearUserFollowing. rewrite lookup_clear.
    destruct (bool_decide_reflect (k ∈ List.map id (db_getUserFollowing db u)))
      as [Hin|Hnin]; [done|].
    intros Hk. split; [done|]. intros Hu. apply Hnin.
    apply list_elem_of_In, List.in_map_iff. exists f.
    destruct (Hdb _ _ Hk) as (-> & _).
    split; [done|]. apply elem_of_getUserFollowing. split; [eauto|done]. }
  split; [|split].
  - unfold getFollowing.
    destruct (db_getUserFollowing (clearUserFollowing db u) u) as [|f l] eqn:E;
      [done|].
    assert (In f (db_getUserFollowing (clearUserFollowing db u) u)) as Hf
      by (rewrite E; by left).
    apply elem_of_getUserFollowing in Hf as [[k Hk] Hu].
    by destruct (Hleft _ _ Hk) as [_ Hne].
  - intros k f Hk Hne. unfold clearUserFollowing. rewrite lookup_clear.
    rewrite bool_decide_eq_false_2; [done|].
    intros Hin. apply list_elem_of_In, List.in_map_iff in Hin as (f' & Hid & Hf').
    apply elem_of_getUserFollowing in Hf' as [[k' Hk'] Hu'].
    destruct (Hdb _ _ Hk') as (-> & _). rewrite Hid in Hk'.
    congruence.
  - intros k f Hk. by destruct (Hleft _ _ Hk).
Qed.

(** X17. Following an address that is not followed yet makes the user's
    following count go up by one. *)
Theorem followUser_count (now : Z) (u a : string) (db : Store) :
  isFollowing db u a = false ->
  getFollowingCount (fst (followUser now u a db)) u = S (getFollowingCount db u).
Proof.
  intros Hnot%isFollowing_false.
  unfold getFollowingCount, db_getUserFollowing, db_getAllFollowing, followUser,
    db_addFollowing. simpl.
  pose proof (map_to_list_insert db (followingId u a) (recordOf now u a) Hnot) as Hperm.
  apply (fmap_Permutation snd) in Hperm.
  assert (forall l1 l2 : list t, l1 ≡ₚ l2 ->
            length (List.filter (fun f => String.eqb (userId f) u) l1)
            = length (List.filter (fun f => String.eqb (userId f) u) l2)) as Hlen.
  { induction 1 as [|x l1 l2 _ IH|x y l|l1 l2 l3 _ IH1 _ IH2]; simpl.
    - done.
    - destruct (String.eqb (userId x) u); simpl; by rewrite IH.
    - destruct (String.eqb (userId x) u), (String.eqb (userId y) u); done.
    - by rewrite IH1. }
  unfold recordOf in Hperm. rewrite (Hlen _ _ Hperm). simpl.
  by rewrite String.eqb_refl.
Qed.

End FollowingServiceFacts.

(** ** The following page and the follow button *)

Section FeedFacts.

Import FollowingService Feed.
Local Open Scope list_scope.

Lemma insert_newestFirst_perm (x : EnhancedPost) (l : list EnhancedPost) :
  JsArray.insertWith newestFirst x l ≡ₚ x :: l.
Proof.
  induction l as [|y l IH]; simpl; [done|].
  destruct (_ <? _); [done|].
  rewrite IH. apply Permutation_swap.
Qed.

Lemma insert_newestFirst_sorted (x : EnhancedPost) (l : list EnhancedPost) :
  StronglySorted notOlder l ->
  StronglySorted notOlder (JsArray.insertWith newestFirst x l).
Proof.
  induction 1 as [|y l Hsorted IH Hall]; simpl.
  - repeat constructor.
  - unfold newestFirst at 1.
    destruct (Z.ltb_spec (Post.timestamp (post y) - Post.timestamp (post x)) 0)
      as [Hlt|Hge].
    + constructor; [by constructor|].
      constructor; [unfold notOlder; lia|].
      eapply Forall_impl; [exact Hall|]. unfold notOlder. intros; simpl in *; lia.
    + constructor; [done|].
      rewrite insert_newestFirst_perm. constructor; [unfold notOlder; lia|done].
Qed.

Lemma sort_newestFirst_from (l acc : list EnhancedPost) :
  StronglySorted notOlder acc ->
  let sorted := foldl (fun sorted x => JsArray.insertWith newestFirst x sorted) acc l in
  StronglySorted notOlder sorted /\ sorted ≡ₚ acc ++ l.
Proof.
  revert acc. induction l as [|x l IH]; intros acc Hacc; simpl.
  - by rewrite app_nil_r.
  - destruct (IH (JsArray.insertWith newestFirst x acc)) as [Hs Hp].
    { by apply insert_newestFirst_sorted. }
    split; [done|].
    simpl in Hp. rewrite Hp, insert_newestFirst_perm. simpl.
    apply Permutation_middle.
Qed.

Lemma includes_In (l : list string) (x : string) :
  JsArray.includes l x = true <-> In x l.
Proof.
  unfold JsArray.includes. rewrite List.existsb_exists. split.
  - intros (y & Hy & ->%String.eqb_eq). done.
  - intros Hx. exists x. split; [done|apply String.eqb_refl].
Qed.

Lemma followingPosts_nobody (posts : list EnhancedPost) :
  followingPosts posts (followedAddresses []) = [].
Proof. induction posts as [|p posts IH]; simpl; done. Qed.

(** X18. The feed of the following page is sorted newest first and holds
    exactly the posts whose author is among the followed addresses, each as
    often as the post list has it; so the count shown on the tab is the
    number of posts listed, and nobody followed means an empty feed. *)
Theorem feed_sorted_and_complete (posts : list EnhancedPost)
    (following : list Following.t) :
  let shown := followingPosts posts (followedAddresses following) in
  let feed := sortedFollowingPosts shown in
  StronglySorted notOlder feed
  /\ feed ≡ₚ shown
  /\ (forall p, In p feed <->
                In p posts /\ exists f, In f following
                                        /\ Following.followedAddress f = authorAddress p)
  /\ (following = [] -> feed = []).
Proof.
  simpl. unfold sortedFollowingPosts, JsArray.sortWith.
  destruct (sort_newestFirst_from
              (followingPosts posts (followedAddresses following)) [])
    as [Hsorted Hperm]; [constructor|].
  simpl in Hsorted, Hperm.
  split; [done|]. split; [done|]. split.
  - intros p. rewrite <- !list_elem_of_In, Hperm, !list_elem_of_In.
    unfold followingPosts, followedAddresses.
    rewrite List.filter_In, includes_In, List.in_map_iff.
    split; intros [Hp (f & Hf)]; (split; [done|]); exists f; tauto.
  - intros ->. apply Permutation_nil_r. rewrite Hperm.
    by rewrite followingPosts_nobody.
Qed.

End FeedFacts.

Section HookFacts.

Import Hook.

Lemma loggedIn_Some (address : string) :
  address <> "" -> loggedIn (Some address) = Some address.
Proof.
  intros Hne. unfold loggedIn, Str.truthy.
  by rewrite (proj2 (String.eqb_neq _ _) Hne).
Qed.

(** X19. A click on the follow button flips it: for a logged-in user looking
    at somebody else's address, the label after [toggleFollow] is "Unfollow"
    if it was "Follow" and "Follow" if it was "Unfollow". *)
Theorem followButton_flips (now : Z) (current address : string) (st : State) :
  current <> "" -> current <> address ->
  let st' := fst (toggleFollow now (Some current) address st) in
  exists before after,
    followButtonLabel (Some current) address st = Some before
    /\ followButtonLabel (Some current) address st' = Some after
    /\ (before = "Follow" /\ after = "Unfollow"
        \/ before = "Unfollow" /\ after = "Follow").
Proof.
  intros Hne Hother. simpl.
  unfold followButtonLabel, isFollowing, toggleFollow.
  rewrite (loggedIn_Some current Hne).
  rewrite bool_decide_eq_false_2 by congruence.
  rewrite bool_decide_eq_true_2 by eauto. simpl.
  rewrite toggleFollow_unfold.
  destruct (Following.isFollowing (database st) current address) eqn:Hbefore;
    simpl.
  - exists "Unfollow", "Follow".
    assert (Following.isFollowing
              (delete (Following.followingId current address) (database st))
              current address = false) as ->.
    { apply isFollowing_false, lookup_delete_eq. }
    auto.
  - exists "Follow", "Unfollow".
    assert (Following.isFollowing
              (<[Following.followingId current address :=
                   FollowingService.recordOf now current address]> (database st))
              current address = true) as ->.
    { apply isFollowing_true. rewrite lookup_insert_eq. by eexists. }
    auto.
Qed.

(** Without a user nothing happens. *)
Lemma toggleFollow_logged_out (now : Z) (address : string) (st : State) :
  toggleFollow now None address st = (st, false)
  /\ toggleFollow now (Some "") address st = (st, false).
Proof. done. Qed.

End HookFacts.

(** ** Relevance: how the score moves *)

Section RelevanceMoreFacts.

Import Relevance.

Lemma size_add_author (a : string) (l : list string) :
  size (list_to_set (a :: l) : gset string)
  = if bool_decide (a ∈ l) then size (list_to_set l : gset string)
    else S (size (list_to_set l : gset string)).
Proof.
  rewrite list_to_set_cons.
  destruct (bool_decide_reflect (a ∈ l)) as [Hin|Hnin].
  - f_equal. apply subseteq_union_1_L.
    apply singleton_subseteq_l. by apply elem_of_list_to_set.
  - rewrite size_union, size_singleton; [done|].
    apply disjoint_singleton_l. by rewrite elem_of_list_to_set.
Qed.

(** X20. What one more vote is worth before decay: an upvote 10 points, 15
    when the voter is verified; a vote of any other value, a downvote
    included, nothing at all. *)
Theorem vote_contribution (post : Post.t) (v : Vote.t) (votes : list Vote.t)
    (comments : list Comment.t) (verifications : gmap string bool) :
  engagementScore post (v :: votes) comments verifications
  = engagementScore post votes comments verifications
    + (if Vote.value v =? 1
       then (if isVerified verifications (Vote.author v) then 15 else 10)
       else 0).
Proof.
  unfold engagementScore, isUpvote. simpl.
  destruct (Vote.value v =? 1); simpl;
    destruct (isVerified verifications (Post.author post));
    try destruct (isVerified verifications (Vote.author v)); simpl; lia.
Qed.

(** X21. What one more comment is worth before decay: 3 points, and 10 more
    when its author is verified and has not commented on the post before; a
    verified author is counted once however often they comment. *)
Theorem comment_contribution (post : Post.t) (votes : list Vote.t)
    (c : Comment.t) (comments : list Comment.t) (verifications : gmap string bool) :
  engagementScore post votes (c :: comments) verifications
  = engagementScore post votes comments verifications + 3
    + (if isVerified verifications (Comment.author c)
          && negb (bool_decide (Comment.author c ∈ List.map Comment.author comments))
       then 10 else 0).
Proof.
  unfold engagementScore. simpl List.map. simpl List.filter. simpl length.
  destruct (isVerified verifications (Comment.author c)) eqn:Hc; simpl andb.
  - rewrite size_add_author.
    assert (bool_decide
              (Comment.author c
                 ∈ List.filter (isVerified verifications)
                     (List.map Comment.author comments))
            = bool_decide (Comment.author c ∈ List.map Comment.author comments))
      as ->.
    { apply bool_decide_ext. rewrite !list_elem_of_In, List.filter_In.
      tauto. }
    destruct (bool_decide _); simpl;
      destruct (isVerified verifications (Post.author post)); lia.
  - destruct (isVerified verifications (Post.author post)); lia.
Qed.

Local Open Scope R_scope.

(** X22. A moderation record for the post halves the score, exactly. *)
Theorem moderation_halves {M : Type} (now : Z) (post : Post.t)
    (votes : list Vote.t) (comments : list Comment.t)
    (verifications : gmap string bool) (moderations : gmap string M) (record : M) :
  moderations !! Post.id post = None ->
  calculateScore now post votes comments verifications
    (<[Post.id post := record]> moderations)
  = 0.5 * calculateScore now post votes comments verifications moderations.
Proof.
  intros Hnone.
  destruct (calculateScore_positive now post votes comments verifications
              (<[Post.id post := record]> moderations)) as [-> _].
  destruct (calculateScore_positive now post votes comments verifications
              moderations) as [-> _].
  unfold specModFactor. rewrite lookup_insert_eq, Hnone.
  rewrite bool_decide_eq_true_2 by eauto.
  rewrite bool_decide_eq_false_2 by (by intros [? ?]).
  lra.
Qed.


(** X24. A post dated in the future is not decayed but boosted: while [now]
    is before the post's timestamp the score exceeds the undecayed points
    times the moderation penalty, and from the timestamp on it never does. *)
Theorem future_posts_boosted {M : Type} (now : Z) (post : Post.t)
    (votes : list Vote.t) (comments : list Comment.t)
    (verifications : gmap string bool) (moderations : gmap string M) :
  let penalty :=
    if bool_decide (is_Some (moderations !! Post.id post)) then 0.5 else 1 in
  let undecayed :=
    IZR (engagementScore post votes comments verifications) * penalty in
  let score := calculateScore now post votes comments verifications moderations in
  ((now < Post.timestamp post)%Z -> undecayed < score)
  /\ ((Post.timestamp post <= now)%Z -> score <= undecayed).
Proof.
  cbv zeta.
  change (if bool_decide (is_Some (moderations !! Post.id post)) then 0.5 else 1)
    with (specModFactor post moderations).
  destruct (calculateScore_positive now post votes comments verifications
              moderations) as [-> _].
  pose proof (engagementScore_base post votes comments verifications) as Hbase.
  apply IZR_le in Hbase.
  assert (0 < specModFactor post moderations) as Hmod.
  { unfold specModFactor. destruct (bool_decide _); lra. }
  assert (0 < IZR msPerDay) as Hday.
  { apply IZR_lt. unfold msPerDay. lia. }
  split; intros Hnow.
  - assert (1 < timeDecay (daysOld now post)) as Hdecay.
    { rewrite <- exp_0. unfold timeDecay. apply exp_increasing.
      assert (daysOld now post < 0) as Hdays.
      { unfold daysOld, Rdiv. apply IZR_lt in Hnow.
        rewrite minus_IZR.
        assert (0 < / IZR msPerDay) by by apply Rinv_0_lt_compat.
        nra. }
      lra. }
    replace (IZR (engagementScore post votes comments verifications)
             * timeDecay (daysOld now post) * specModFactor post moderations)
      with (IZR (engagementScore post votes comments verifications)
            * specModFactor post moderations * timeDecay (daysOld now post))
      by ring.
    rewrite <- (Rmult_1_r (_ * specModFactor post moderations)) at 1.
    apply Rmult_lt_compat_l; [|done].
    apply Rmult_lt_0_compat; lra.
  - assert (timeDecay (daysOld now post) <= 1) as Hdecay.
    { rewrite <- exp_0. unfold timeDecay.
      assert (0 <= daysOld now post) as Hdays.
      { unfold daysOld, Rdiv. apply IZR_le in Hnow.
        rewrite minus_IZR.
        assert (0 < / IZR msPerDay) by by apply Rinv_0_lt_compat.
        nra. }
      destruct (Req_dec (daysOld now post) 0) as [->|Hne].
      - right. f_equal. lra.
      - left. apply exp_increasing. lra. }
    replace (IZR (engagementScore post votes comments verifications)
             * timeDecay (daysOld now post) * specModFactor post moderations)
      with (IZR (engagementScore post votes comments verifications)
            * specModFactor post moderations * timeDecay (daysOld now post))
      by ring.
    rewrite <- (Rmult_1_r (_ * specModFactor post moderations)) at 2.
    apply Rmult_le_compat_l; [|done].
    apply Rmult_le_pos; lra.
Qed.

End RelevanceMoreFacts.

(** ** Delegation: creating, signing, verifying *)

Section DelegationMoreFacts.

Import Delegation DelegationProcess DelegationChecks.
Local Open Scope string_scope.

Variable ed25519_verify : string -> UnsignedMessage -> string -> bool.
Variable verifyWalletSignature : string -> string -> string -> bool.
Variable ed25519_sign : UnsignedMessage -> string -> string.
Variable toISOString : Z -> string.

Local Abbreviation verify := (verifyMessage ed25519_verify verifyWalletSignature).
Local Abbreviation sign := (signMessage ed25519_sign).

(** *** Containment along concatenation *)

Lemma includes_prefix (sub rest : string) : Text.includes (sub ++ rest) sub = true.
Proof. apply includes_spec. by exists "", rest. Qed.

Lemma includes_skip (s t sub : string) :
  Text.includes t sub = true -> Text.includes (s ++ t) sub = true.
Proof.
  intros Ht. induction s as [|c s IH]; [done|].
  rewrite append_cons. simpl. by rewrite IH, orb_true_r.
Qed.

Lemma includes_empty (d : string) : d <> "" -> Text.includes "" d = false.
Proof. by destruct d. Qed.

(** A run of digits cannot start on a character that is none. *)
Lemma startsWith_nondigit (c : ascii) (s d : string) :
  d <> "" -> allDigits d -> isDigit c = false ->
  Text.startsWith (String c s) d = false.
Proof.
  destruct d as [|e d]; [done|]. intros _ [He _] Hc. simpl.
  destruct (Ascii.eqb_spec e c) as [->|_]; [congruence|done].
Qed.

Lemma includes_after_nondigits (sep y d : string) :
  d <> "" -> allDigits d -> noDigits sep ->
  Text.includes (sep ++ y) d = true -> Text.includes y d = true.
Proof.
  intros Hd Hdigits. induction sep as [|c sep IH]; [done|].
  intros [Hc Hsep]. rewrite append_cons. simpl.
  rewrite (startsWith_nondigit c _ d Hd Hdigits Hc). simpl. by apply IH.
Qed.

Lemma startsWith_before_nondigits (x sep y d : string) :
  allDigits d -> noDigits sep -> sep <> "" ->
  Text.startsWith (x ++ sep ++ y) d = true -> Text.startsWith x d = true.
Proof.
  intros Hdigits Hsep Hne. revert d Hdigits.
  induction x as [|a x IH]; intros d Hdigits.
  - rewrite append_nil_l. destruct d as [|e d]; [done|].
    destruct sep as [|c sep]; [done|]. rewrite append_cons.
    destruct Hsep as [Hc _]. destruct Hdigits as [He _]. simpl.
    destruct (Ascii.eqb_spec e c) as [->|_]; [congruence|done].
  - rewrite append_cons. destruct d as [|e d]; [done|]. simpl.
    destruct (Ascii.eqb e a); [|done].
    destruct Hdigits as [_ Hd]. by apply IH.
Qed.

(** A run of digits found in [x ++ sep ++ y], the separator holding no
    digit, lies in [x] or in [y]. *)
Lemma includes_around_nondigits (x sep y d : string) :
  d <> "" -> allDigits d -> noDigits sep -> sep <> "" ->
  Text.includes (x ++ sep ++ y) d = true ->
  Text.includes x d = true \/ Text.includes y d = true.
Proof.
  intros Hd Hdigits Hsep Hne.
  induction x as [|a x IH].
  - rewrite append_nil_l. intros H. right.
    by apply (includes_after_nondigits sep y d).
  - rewrite append_cons. simpl. rewrite orb_true_iff. intros [Hstart|Hrest].
    + left. rewrite <- append_cons in Hstart.
      apply startsWith_before_nondigits in Hstart; [|done..].
      simpl in Hstart. simpl. by rewrite Hstart.
    + destruct (IH Hrest) as [Hx|Hy]; [left|by right].
      simpl. by rewrite Hx, orb_true_r.
Qed.

Lemma pretty_N_go_nonempty (x : N) (s : string) :
  s <> "" -> pretty_N_go x s <> "".
Proof.
  revert s. induction (N.lt_wf_0 x) as [x _ IH]; intros s Hs.
  destruct (decide (x = 0)%N) as [->|Hx]; [by rewrite pretty_N_go_0|].
  rewrite pretty_N_go_step by lia. apply IH; [apply N.div_lt; lia|done].
Qed.

Lemma toString_nonempty (z : Z) : 0 <= z -> Text.toString z <> "".
Proof.
  intros Hz. unfold Text.toString, pretty, pretty_Z.
  destruct z as [|p|p]; [discriminate| |lia].
  change (pretty (Npos p) <> ""). unfold pretty, pretty_N. case_decide; [discriminate|].
  rewrite pretty_N_go_step by lia. by apply pretty_N_go_nonempty.
Qed.

(** The fixed text of the authorization message. *)
Lemma createAuthMessage_shape (publicKey walletAddress : string)
    (expiryTimestamp : Z) (nonce : string) :
  createAuthMessage toISOString publicKey walletAddress expiryTimestamp nonce
  = (nl ++ "Authorize browser key:" ++ nl ++ "  Public Key: ")
    ++ publicKey ++ (nl ++ "  Wallet: ")
    ++ walletAddress ++ (nl ++ "  Expires: ")
    ++ toISOString expiryTimestamp ++ (nl ++ "  Nonce: ")
    ++ nonce ++ nl.
Proof. reflexivity. Qed.

(** X25. The authorization message of the delegation process names the
    device public key, the wallet address and the nonce, whatever they
    are. *)
Theorem createAuthMessage_names (publicKey walletAddress : string)
    (expiryTimestamp : Z) (nonce : string) :
  let authMessage :=
    createAuthMessage toISOString publicKey walletAddress expiryTimestamp nonce in
  Text.includes authMessage publicKey = true
  /\ Text.includes authMessage walletAddress = true
  /\ Text.includes authMessage nonce = true.
Proof.
  cbv zeta. rewrite createAuthMessage_shape. repeat split.
  - apply includes_skip, includes_prefix.
  - do 3 apply includes_skip. apply includes_prefix.
  - do 7 apply includes_skip. apply includes_prefix.
Qed.

(** The expiry, however, is written as an ISO date: its decimal rendering
    is in the message only if one of the variable parts holds it. *)
Lemma createAuthMessage_lacks_expiry (publicKey walletAddress : string)
    (expiryTimestamp : Z) (nonce : string) :
  0 <= expiryTimestamp ->
  let decimal := Text.toString expiryTimestamp in
  Text.includes publicKey decimal = false ->
  Text.includes walletAddress decimal = false ->
  Text.includes (toISOString expiryTimestamp) decimal = false ->
  Text.includes nonce decimal = false ->
  Text.includes
    (createAuthMessage toISOString publicKey walletAddress expiryTimestamp nonce)
    decimal = false.
Proof.
  intros Hexp decimal Hkey Hwallet Hiso Hnonce.
  assert (allDigits decimal) as Hdigits by by apply toString_digits.
  assert (decimal <> "") as Hne.
  { subst decimal. by apply toString_nonempty. }
  apply not_true_iff_false. intros Hin.
  rewrite createAuthMessage_shape in Hin.
  apply includes_after_nondigits in Hin; [|done|done|by repeat split].
  apply includes_around_nondigits in Hin as [Hin|Hin];
    [congruence| |done|done|by repeat split|done].
  apply includes_around_nondigits in Hin as [Hin|Hin];
    [congruence| |done|done|by repeat split|done].
  apply includes_around_nondigits in Hin as [Hin|Hin];
    [congruence| |done|done|by repeat split|done].
  change (nonce ++ nl) with (nonce ++ nl ++ "") in Hin.
  apply includes_around_nondigits in Hin as [Hin|Hin];
    [congruence| |done|done|by repeat split|done].
  by rewrite includes_empty in Hin.
Qed.

(** X26. A delegation made as the delegation process documents it writes
    the expiry into the authorization message as an ISO date only, while
    verification looks for its decimal rendering: unless that number
    happens to occur in the key, the address, the ISO date or the nonce, no
    message signed under such a delegation verifies. *)
Theorem documented_delegation_never_verifies
    (signFunction : string -> string)
    (publicKey privateKey walletAddress : string) (expiryTimestamp : Z)
    (nonce : string) (u : UnsignedMessage) (signed : OpchanMessage)
    (e e' : Env) :
  0 <= expiryTimestamp ->
  Text.includes publicKey (Text.toString expiryTimestamp) = false ->
  Text.includes walletAddress (Text.toString expiryTimestamp) = false ->
  Text.includes (toISOString expiryTimestamp) (Text.toString expiryTimestamp)
    = false ->
  Text.includes nonce (Text.toString expiryTimestamp) = false ->
  stored e = Some (WalletDelegation
    (delegate toISOString signFunction publicKey privateKey walletAddress
       expiryTimestamp nonce)) ->
  sign u e = Some signed ->
  verify signed e' = false.
Proof.
  intros Hexp Hkey Hwallet Hiso Hnonce Hstored Hsign.
  unfold signMessage, bind, ret, loadDelegation, dateNow in Hsign.
  rewrite Hstored in Hsign.
  destruct (Z.leb _ _) in Hsign; [done|].
  injection Hsign as <-.
  erewrite (verify_wallet_unfold _ _ _ _ e') by reflexivity.
  cbn -[createAuthMessage Text.includes Text.toString].
  rewrite createAuthMessage_lacks_expiry by done.
  by rewrite !andb_false_r.
Qed.


(** X28. verifyMessage does not tie the author to the wallet: once a message
    with a delegation proof has verified, any payload the same device key
    signs verifies with that proof, whatever author it names. *)
Theorem delegated_key_signs_for_any_author (m : OpchanMessage)
    (p : DelegationProof) (u : UnsignedMessage) (sig : string) (e e' : Env) :
  delegationProof m = Some p ->
  verify m e = true ->
  ed25519_verify sig u (browserPubKey m) = true ->
  verify {| unsigned := u; signature := sig;
            browserPubKey := browserPubKey m;
            delegationProof := Some p |} e' = true.
Proof.
  intros Hp Hm Hsig.
  rewrite (verify_wallet_unfold _ _ _ p e Hp) in Hm.
  erewrite (verify_wallet_unfold _ _ _ _ e') by reflexivity. simpl.
  rewrite !andb_true_iff in Hm. destruct Hm as ((((_ & ->) & ->) & ->) & ->).
  by rewrite Hsig.
Qed.

(** X29. The two documented verifiers, given the same two cryptographic
    checks, agree on every message without a delegation proof and on every
    message whose author is the wallet address of its proof. *)
Theorem verifiers_agree_on_wallet_author (m : OpchanMessage) (e : Env) :
  let verifyRaw payload sig key := ed25519_verify sig payload key in
  let verifyWalletSignature' message sig address :=
    verifyWalletSignature address message sig in
  match delegationProof m with
  | Some p => author (unsigned m) = walletAddress p
  | None => True
  end ->
  verificationProcess verifyRaw verifyWalletSignature' m = verify m e.
Proof.
  cbv zeta. intros Hauthor. unfold verificationProcess.
  destruct (delegationProof m) as [p|] eqn:Hp.
  - rewrite (verify_wallet_unfold _ _ _ p e Hp), Hauthor.
    destruct (ed25519_verify _ _ _); [simpl|done].
    by rewrite !andb_assoc.
  - rewrite (verify_anonymous_unfold _ _ _ e Hp).
    by destruct (ed25519_verify _ _ _).
Qed.

(** X30. They part on the author only: a message with a delegation proof
    that verifyMessage accepts passes the verification process exactly when
    the authorization message contains its author. *)
Theorem verificationProcess_adds_author_check (m : OpchanMessage)
    (p : DelegationProof) (e : Env) :
  let verifyRaw payload sig key := ed25519_verify sig payload key in
  let verifyWalletSignature' message sig address :=
    verifyWalletSignature address message sig in
  delegationProof m = Some p ->
  verify m e = true ->
  verificationProcess verifyRaw verifyWalletSignature' m
  = Text.includes (authMessage p) (author (unsigned m)).
Proof.
  cbv zeta. intros Hp Hm. unfold verificationProcess. rewrite Hp.
  rewrite (verify_wallet_unfold _ _ _ p e Hp) in Hm.
  rewrite !andb_true_iff in Hm. destruct Hm as ((((-> & ->) & ->) & _) & ->).
  simpl. by rewrite andb_true_r.
Qed.

End DelegationMoreFacts.

(** ** The further properties on the sample data *)

Section FurtherExamples.

Local Open Scope list_scope.

Lemma wellFiled_aliceFollowsBob :
  FollowingService.wellFiled Scenario.aliceFollowsBob.
Proof.
  apply wellFiled_insert; [repeat split; discriminate|].
  intros k f Hk. by rewrite lookup_empty in Hk.
Qed.

Lemma followingId_injective_witness :
  Following.followingId "alice" "bob" = "alice:bob"
  /\ "alice" = "alice" /\ "bob" = "bob".
Proof.
  split; [reflexivity|].
  apply (followingId_injective "alice" "alice" "bob" "bob");
    [repeat split; discriminate..|reflexivity].
Defined.

Lemma parseBookmarkId_roundtrip_witness :
  ContentHook.parseBookmarkId "comment:k1"
  = (ContentHook.BookmarkComment, Some "k1").
Proof.
  apply (parseBookmarkId_roundtrip ContentHook.BookmarkComment "k1").
  repeat split; discriminate.
Defined.

Lemma shortened_shape_witness :
  Identity.shortened Sample.wallet = "0x742d...beb1".
Proof.
  apply (shortened_shape "0x742d" "35cc6634c0532925a3b844bc9e7595f0" "beb1");
    reflexivity.
Defined.



Lemma follow_unfollow_roundtrip_witness :
  Following.unfollowUser "alice" "bob" Scenario.aliceFollowsBob = ∅.
Proof.
  apply (follow_unfollow_roundtrip 1000 "alice" "bob" ∅).
  vm_compute. reflexivity.
Defined.

Lemma toggleFollow_other_pairs_witness :
  Following.isFollowing
    (fst (Following.toggleFollow 2000 "alice" "carol" Scenario.aliceFollowsBob))
    "alice" "bob"
  = Following.isFollowing Scenario.aliceFollowsBob "alice" "bob".
Proof.
  apply (toggleFollow_other_pairs 2000 "alice" "carol" "alice" "bob"
           Scenario.aliceFollowsBob);
    [repeat split; discriminate..|discriminate].
Defined.

Lemma service_keeps_wellFiled_witness :
  FollowingService.wellFiled
    (fst (Following.toggleFollow 2000 "alice" "carol" Scenario.aliceFollowsBob)).
Proof.
  destruct (service_keeps_wellFiled 2000 "alice" "carol" Scenario.aliceFollowsBob)
    as [_ Hkeeps].
  apply Hkeeps; [repeat split; discriminate|apply wellFiled_aliceFollowsBob].
Defined.

Lemma isFollowing_iff_listed_witness :
  In "bob" (FollowingService.getFollowing Scenario.aliceFollowsBob "alice").
Proof.
  apply (isFollowing_iff_listed Scenario.aliceFollowsBob "alice" "bob");
    [apply wellFiled_aliceFollowsBob|repeat split; discriminate|reflexivity].
Defined.

Lemma clearUserFollowing_clears_witness :
  FollowingService.getFollowing
    (FollowingService.clearUserFollowing Scenario.aliceFollowsBob "alice") "alice"
  = [].
Proof.
  apply (clearUserFollowing_clears Scenario.aliceFollowsBob "alice").
  apply wellFiled_aliceFollowsBob.
Defined.

Lemma followUser_count_witness :
  FollowingService.getFollowingCount
    (fst (Following.followUser 2000 "alice" "carol" Scenario.aliceFollowsBob))
    "alice"
  = S (FollowingService.getFollowingCount Scenario.aliceFollowsBob "alice").
Proof.
  apply (followUser_count 2000 "alice" "carol" Scenario.aliceFollowsBob).
  reflexivity.
Defined.

Lemma followButton_flips_witness :
  exists before after,
    Hook.followButtonLabel (Some "alice") "bob" Scenario.aliceState = Some before
    /\ Hook.followButtonLabel (Some "alice") "bob"
         (fst (Hook.toggleFollow 2000 (Some "alice") "bob" Scenario.aliceState))
       = Some after
    /\ (before = "Follow" /\ after = "Unfollow"
        \/ before = "Unfollow" /\ after = "Follow").
Proof.
  apply (followButton_flips 2000 "alice" "bob" Scenario.aliceState);
    discriminate.
Defined.

Lemma moderation_halves_witness :
  (Relevance.calculateScore 1000 Sample.rankedPost Sample.tenUpvotes []
     Sample.verifications (<["p1" := Sample.downvoteB]> Sample.noModerations)
   = 0.5 * Relevance.calculateScore 1000 Sample.rankedPost Sample.tenUpvotes []
             Sample.verifications Sample.noModerations)%R.
Proof.
  apply (moderation_halves 1000 Sample.rankedPost Sample.tenUpvotes []
           Sample.verifications Sample.noModerations Sample.downvoteB).
  reflexivity.
Defined.

Lemma future_posts_boosted_witness :
  (IZR (Relevance.engagementScore Sample.rankedPost Sample.tenUpvotes []
          Sample.verifications)
   * (if bool_decide (is_Some (Sample.noModerations !! "p1")) then 0.5 else 1)
   < Relevance.calculateScore 0 Sample.rankedPost Sample.tenUpvotes []
       Sample.verifications Sample.noModerations)%R.
Proof.
  apply (proj1 (future_posts_boosted 0 Sample.rankedPost Sample.tenUpvotes []
                  Sample.verifications Sample.noModerations)).
  reflexivity.
Defined.

Lemma documented_delegation_never_verifies_witness :
  Delegation.verifyMessage Sample.trustingEd25519 Sample.trustingWallet
    Scenario.documentedPost (Sample.envAt 0 None) = false.
Proof.
  apply (documented_delegation_never_verifies Sample.trustingEd25519
           Sample.trustingWallet Sample.plainSign Scenario.isoDate
           Scenario.walletSigner Sample.deviceKey "device" Sample.wallet
           Sample.expiry "5d41402a" (Sample.helloPost Sample.wallet)
           Scenario.documentedPost
           (Sample.envAt 5 (Some Scenario.documentedDelegation))
           (Sample.envAt 0 None));
    vm_compute; first [reflexivity | discriminate].
Defined.


Lemma delegated_key_signs_for_any_author_witness :
  author (unsigned Scenario.guestPost) <> walletAddress Sample.walletProof
  /\ Delegation.verifyMessage Sample.trustingEd25519 Sample.trustingWallet
       Scenario.guestPost (Sample.envAt 0 None) = true.
Proof.
  split; [discriminate|].
  apply (delegated_key_signs_for_any_author Sample.trustingEd25519
           Sample.trustingWallet Sample.walletPost Sample.walletProof
           (Sample.helloPost "mallory") "sig/device"
           (Sample.envAt 0 None) (Sample.envAt 0 None));
    vm_compute; reflexivity.
Defined.

Lemma verifiers_agree_on_wallet_author_witness :
  DelegationProcess.verificationProcess Scenario.verifyRaw
    Scenario.verifyWalletSignature Sample.walletPost
  = Delegation.verifyMessage Sample.trustingEd25519 Sample.trustingWallet
      Sample.walletPost (Sample.envAt 0 None).
Proof.
  apply (verifiers_agree_on_wallet_author Sample.trustingEd25519
           Sample.trustingWallet Sample.walletPost (Sample.envAt 0 None)).
  reflexivity.
Defined.

Lemma verificationProcess_adds_author_check_witness :
  DelegationProcess.verificationProcess Scenario.verifyRaw
    Scenario.verifyWalletSignature Scenario.guestPost
  = Text.includes Sample.walletAuthMessage "mallory".
Proof.
  apply (verificationProcess_adds_author_check Sample.trustingEd25519
           Sample.trustingWallet Scenario.guestPost Sample.walletProof
           (Sample.envAt 0 None));
    vm_compute; reflexivity.
Defined.

End FurtherExamples.
